(** * Key/value splitter (plugins/processor/split/keyvalue/key_value_splitter.go)

    A shallow embedding of the processor [KeyValueSplitter] and the
    properties of its pair-splitting loop.

    Go strings are byte sequences: they are lists of [ascii] here.  Go [int]
    values (indices, lengths, the two key counters) are [Z].  Every index the
    code computes is a sum of a few string lengths, and each counter is
    bounded by the number of fields appended so far (lemma
    [counters_bounded]), so none of them can leave the range of a 64-bit
    [int] and the arithmetic is exact.

    A slice expression out of range panics in Go: slices are fallible here,
    and a panic is an outcome of its own that keeps the effects performed so
    far.  The [for] loop of [splitKeyValue] is run with fuel, since it does
    not always terminate. *)

From Stdlib Require Import List ZArith Lia Bool Ascii String DecimalString.
Import ListNotations.
Open Scope Z_scope.

(* [String.length] hides the length of lists. *)
Abbreviation length := Datatypes.length (only parsing).

(** ** Go strings *)

Definition gostring := list ascii.

Definition str (s : string) : gostring := list_ascii_of_string s.
Arguments str s%_string.

Definition len (s : gostring) : Z := Z.of_nat (length s).

Definition tab : ascii := "009"%char.
Definition dquote : ascii := "034"%char.

Fixpoint bytes_eqb (a b : gostring) : bool :=
  match a, b with
  | [], [] => true
  | x :: a', y :: b' => Ascii.eqb x y && bytes_eqb a' b'
  | _, _ => false
  end.

(** [s[lo:hi]]: panics ([None]) unless [0 <= lo <= hi <= len(s)]. *)
Definition slice (s : gostring) (lo hi : Z) : option gostring :=
  if (0 <=? lo) && (lo <=? hi) && (hi <=? len s)
  then Some (firstn (Z.to_nat (hi - lo)) (skipn (Z.to_nat lo) s))
  else None.

(** [s[:hi]] and [s[lo:]]. *)
Definition slice_to (s : gostring) (hi : Z) : option gostring := slice s 0 hi.
Definition slice_from (s : gostring) (lo : Z) : option gostring := slice s lo (len s).

Module strings.

(** [strings.HasPrefix]: [len(s) >= len(prefix) && s[:len(prefix)] == prefix]. *)
Definition HasPrefix (s prefix : gostring) : bool :=
  (len prefix <=? len s) && bytes_eqb (firstn (length prefix) s) prefix.

(** [strings.HasSuffix]:
    [len(s) >= len(suffix) && s[len(s)-len(suffix):] == suffix]. *)
Definition HasSuffix (s suffix : gostring) : bool :=
  (len suffix <=? len s)
  && bytes_eqb (skipn (length s - length suffix) s) suffix.

(** The first index at or after [i] (counted from the start of the
    original string) where [substr] occurs, [-1] when there is none. *)
Fixpoint IndexFrom (s substr : gostring) (i : Z) : Z :=
  if HasPrefix s substr then i
  else match s with
       | [] => -1
       | _ :: s' => IndexFrom s' substr (i + 1)
       end.

(** [strings.Index]. *)
Definition Index (s substr : gostring) : Z := IndexFrom s substr 0.

End strings.

Module strconv.

(** [strconv.Itoa]: the decimal rendering of an [int]. *)
Definition Itoa (i : Z) : gostring :=
  str (NilZero.string_of_int (Z.to_int i)).

End strconv.

(** ** Records, diagnostics and the processor's configuration *)

(** [protocol.Log_Content]. *)
Record Log_Content := mkContent { Key : gostring; Value : gostring }.

(** One call of [logger.Warningf]: the alarm type and the formatted message. *)
Record Alarm := mkAlarm { alarmType : gostring; message : gostring }.

(** The place in [splitKeyValue] that appended a field: the no-separator
    branch, the branch that synthesizes a key for an empty one, or the
    ordinary key/value branch. *)
Inductive Site := NoSeparatorSite | EmptyKeySite | PlainSite.

Definition Site_eqb (a b : Site) : bool :=
  match a, b with
  | NoSeparatorSite, NoSeparatorSite => true
  | EmptyKeySite, EmptyKeySite => true
  | PlainSite, PlainSite => true
  | _, _ => false
  end.

(** What a call can change: the fields of the record ([log.Contents]), the
    warnings sent to the logger, and, as ghost state, the history of the
    appends made by [splitKeyValue], each with its site. *)
Record Store := mkStore {
  Contents : list Log_Content;
  Warnings : list Alarm;
  Appended : list (Site * Log_Content)
}.

(** The configuration of the processor.  The field [context] of the Go
    struct, which [Init] sets and which is used only to reach the logger
    ([s.context.GetRuntimeContext()] in every call of [logger.Warningf]), is
    not part of the record: what is modelled is a processor whose context is
    attached, as it is once the host has called [Init].  On a processor
    without context, every warning would panic on the nil context before
    anything is logged. *)
Record KeyValueSplitter := mkSplitter {
  SourceKey : gostring;
  Delimiter : gostring;
  Separator : gostring;
  KeepSource : bool;
  EmptyKeyPrefix : gostring;
  NoSeparatorKeyPrefix : gostring;
  QuoteFlag : bool;
  Quote : gostring;
  DiscardWhenSeparatorNotFound : bool;
  ErrIfSourceKeyNotFound : bool;
  ErrIfSeparatorNotFound : bool;
  ErrIfKeyIsEmpty : bool
}.

Definition defaultDelimiter : gostring := [tab].
Definition defaultSeparator : gostring := str ":".
Definition defaultEmptyKeyPrefix : gostring := str "empty_key_".
Definition defaultNoSeparatorKeyPrefix : gostring := str "no_separator_key_".

Definition orDefault (v d : gostring) : gostring :=
  if len v =? 0 then d else v.

(** [Init]: the defaults of the four strings.  The attachment of the context
    ([s.context = context]) has no counterpart in the record, and the error
    returned is always [nil]. *)
Definition Init (s : KeyValueSplitter) : KeyValueSplitter :=
  {| SourceKey := SourceKey s;
     Delimiter := orDefault (Delimiter s) defaultDelimiter;
     Separator := orDefault (Separator s) defaultSeparator;
     KeepSource := KeepSource s;
     EmptyKeyPrefix := orDefault (EmptyKeyPrefix s) defaultEmptyKeyPrefix;
     NoSeparatorKeyPrefix :=
       orDefault (NoSeparatorKeyPrefix s) defaultNoSeparatorKeyPrefix;
     QuoteFlag := QuoteFlag s;
     Quote := Quote s;
     DiscardWhenSeparatorNotFound := DiscardWhenSeparatorNotFound s;
     ErrIfSourceKeyNotFound := ErrIfSourceKeyNotFound s;
     ErrIfSeparatorNotFound := ErrIfSeparatorNotFound s;
     ErrIfKeyIsEmpty := ErrIfKeyIsEmpty s |}.

Definition newKeyValueSplitter : KeyValueSplitter :=
  {| SourceKey := [];
     Delimiter := defaultDelimiter;
     Separator := defaultSeparator;
     KeepSource := true;
     EmptyKeyPrefix := defaultEmptyKeyPrefix;
     NoSeparatorKeyPrefix := defaultNoSeparatorKeyPrefix;
     QuoteFlag := false;
     Quote := [];
     DiscardWhenSeparatorNotFound := false;
     ErrIfSourceKeyNotFound := true;
     ErrIfSeparatorNotFound := true;
     ErrIfKeyIsEmpty := true |}.

(** ** Effects: a state monad over [Store] with panics and fuel *)

Inductive Res (A : Type) : Type :=
| Ok (a : A)
| Panic
| OutOfFuel.
Arguments Ok {A} a.
Arguments Panic {A}.
Arguments OutOfFuel {A}.

Definition M (A : Type) : Type := Store -> Store * Res A.

Definition ret {A} (a : A) : M A := fun st => (st, Ok a).

Definition bind {A B} (m : M A) (k : A -> M B) : M B :=
  fun st =>
    match m st with
    | (st', Ok a) => k a st'
    | (st', Panic) => (st', Panic)
    | (st', OutOfFuel) => (st', OutOfFuel)
    end.

Notation "x <- m ;; k" := (bind m (fun x => k))
  (at level 61, m at next level, right associativity).
Notation "' p <- m ;; k" := (bind m (fun x => let p := x in k))
  (at level 61, p pattern, m at next level, right associativity).
Notation "m ;;; k" := (bind m (fun _ => k))
  (at level 61, right associativity).

(** A fallible pure step: [None] is a run-time panic. *)
Definition lift {A} (o : option A) : M A :=
  fun st => match o with Some a => (st, Ok a) | None => (st, Panic) end.

Definition outOfFuel {A} : M A := fun st => (st, OutOfFuel).

Definition getContents : M (list Log_Content) := fun st => (st, Ok (Contents st)).

(** [logger.Warningf(s.context.GetRuntimeContext(), "KV_SPLITTER_ALARM",
    format, arg)], for a processor whose context is attached (see
    [KeyValueSplitter]): the warning goes to the logger. *)
Definition Warningf (msg : gostring) : M unit :=
  fun st =>
    ({| Contents := Contents st;
        Warnings := Warnings st ++ [mkAlarm (str "KV_SPLITTER_ALARM") msg];
        Appended := Appended st |}, Ok tt).

(** [log.Contents = append(log.Contents, &protocol.Log_Content{...})]
    at the given site. *)
Definition appendContent (site : Site) (c : Log_Content) : M unit :=
  fun st =>
    ({| Contents := Contents st ++ [c];
        Warnings := Warnings st;
        Appended := Appended st ++ [(site, c)] |}, Ok tt).

(** [log.Contents = append(log.Contents[:idx], log.Contents[idx+1:]...)]. *)
Definition removeContent (idx : nat) : M unit :=
  fun st =>
    ({| Contents := firstn idx (Contents st) ++ skipn (S idx) (Contents st);
        Warnings := Warnings st;
        Appended := Appended st |}, Ok tt).

Definition when (b : bool) (m : M unit) : M unit := if b then m else ret tt.

(** ** The splitter *)

Definition getValue (s : KeyValueSplitter) (value : gostring) : option gostring :=
  if QuoteFlag s && (0 <? len (Quote s)) then
    if (2 * len (Quote s) <=? len value)
       && strings.HasPrefix value (Quote s)
       && strings.HasSuffix value (Quote s)
    then slice value (len (Quote s)) (len value - len (Quote s))
    else Some value
  else Some value.

Definition concatQuotePair (s : KeyValueSplitter)
    (pair content : gostring) (dIdx : Z) : option (gostring * Z) :=
  if QuoteFlag s && (0 <? len (Quote s))
     && negb (strings.HasSuffix pair (Quote s))
  then
    match slice_from content (dIdx + 1) with
    | None => None
    | Some tail =>
        let lastQuote := strings.Index tail (Quote s) in
        if (0 <? strings.Index pair (Separator s ++ Quote s))
           || strings.HasPrefix pair (Quote s)
        then
          let lastQuote := lastQuote + len (Separator s ++ Quote s) in
          if 0 <? lastQuote then
            let dIdx := dIdx + lastQuote in
            option_map (fun pair => (pair, dIdx)) (slice_to content dIdx)
          else Some (pair, dIdx)
        else Some (pair, dIdx)
    end
  else Some (pair, dIdx).

(** The local variables of [splitKeyValue]. *)
Record Locals := mkLocals {
  content : gostring;
  dIdx : Z;
  emptyKeyIndex : Z;
  noSeparatorKeyIndex : Z
}.

Inductive Flow := Continue (l : Locals) | Break.

(** Lines 113-137: the separator / empty-key logic applied to one pair.
    Returns the two counters. *)
Definition handlePair (s : KeyValueSplitter) (pair : gostring)
    (emptyKeyIndex noSeparatorKeyIndex : Z) : M (Z * Z) :=
  let pos := strings.Index pair (Separator s) in
  if pos =? -1 then
    when (ErrIfSeparatorNotFound s)
         (Warningf (str "can not find separator in " ++ pair)) ;;;
    if negb (DiscardWhenSeparatorNotFound s) then
      value <- lift (getValue s pair) ;;
      appendContent NoSeparatorSite
        {| Key := NoSeparatorKeyPrefix s ++ strconv.Itoa noSeparatorKeyIndex;
           Value := value |} ;;;
      ret (emptyKeyIndex, noSeparatorKeyIndex + 1)
    else ret (emptyKeyIndex, noSeparatorKeyIndex)
  else
    key <- lift (slice_to pair pos) ;;
    rest <- lift (slice_from pair (pos + len (Separator s))) ;;
    value <- lift (getValue s rest) ;;
    if len key =? 0 then
      let key := EmptyKeyPrefix s ++ strconv.Itoa emptyKeyIndex in
      when (ErrIfKeyIsEmpty s)
           (Warningf (str "the key of pair with value ("
                      ++ value ++ str ") is empty")) ;;;
      appendContent EmptyKeySite {| Key := key; Value := value |} ;;;
      ret (emptyKeyIndex + 1, noSeparatorKeyIndex)
    else
      appendContent PlainSite {| Key := key; Value := value |} ;;;
      ret (emptyKeyIndex, noSeparatorKeyIndex).

(** One iteration of the loop of [splitKeyValue] (lines 104-144). *)
Definition loopBody (s : KeyValueSplitter) (l : Locals) : M Flow :=
  let content := content l in
  let dIdx := strings.Index content (Delimiter s) in
  pair <- (if dIdx =? -1 then ret content else lift (slice_to content dIdx)) ;;
  r <- lift (concatQuotePair s pair content dIdx) ;;
  let pair := fst r in
  let dIdx := snd r in
  '(emptyKeyIndex, noSeparatorKeyIndex) <-
     handlePair s pair (emptyKeyIndex l) (noSeparatorKeyIndex l) ;;
  if dIdx =? -1 then ret Break
  else if dIdx + len (Delimiter s) <=? len content then
    content <- lift (slice_from content (dIdx + len (Delimiter s))) ;;
    ret (Continue (mkLocals content dIdx emptyKeyIndex noSeparatorKeyIndex))
  else
    ret (Continue (mkLocals content dIdx emptyKeyIndex noSeparatorKeyIndex)).

(** [for dIdx < len(content) { ... }]. *)
Fixpoint splitLoop (s : KeyValueSplitter) (fuel : nat) (l : Locals) : M unit :=
  if dIdx l <? len (content l) then
    match fuel with
    | O => outOfFuel
    | S fuel' =>
        flow <- loopBody s l ;;
        match flow with
        | Continue l' => splitLoop s fuel' l'
        | Break => ret tt
        end
    end
  else ret tt.

Definition splitKeyValue (s : KeyValueSplitter) (fuel : nat)
    (content : gostring) : M unit :=
  splitLoop s fuel (mkLocals content 0 0 0).

(** The test of line 85:
    [len(s.SourceKey) == 0 || s.SourceKey == content.Key]. *)
Definition isSource (s : KeyValueSplitter) (c : Log_Content) : bool :=
  (len (SourceKey s) =? 0) || bytes_eqb (SourceKey s) (Key c).

(** The [range] loop of [processLog] over the fields still to visit, [idx]
    being the index of the first of them; returns [hasKey]. *)
Fixpoint rangeContents (s : KeyValueSplitter) (fuel : nat)
    (rest : list Log_Content) (idx : nat) : M bool :=
  match rest with
  | [] => ret false
  | c :: rest' =>
      if isSource s c then
        when (negb (KeepSource s)) (removeContent idx) ;;;
        splitKeyValue s fuel (Value c) ;;;
        ret true
      else rangeContents s fuel rest' (S idx)
  end.

Definition processLog (s : KeyValueSplitter) (fuel : nat) : M unit :=
  cs <- getContents ;;
  hasKey <- rangeContents s fuel cs 0 ;;
  when (negb hasKey && ErrIfSourceKeyNotFound s)
       (Warningf (str "can not find key: " ++ SourceKey s)).

(** A batch of records: the fields of each record of [logArray], with the
    logger and the ghost history that the records share. *)
Record Batch := mkBatch {
  Logs : list (list Log_Content);
  Sink : list Alarm;
  Trace : list (Site * Log_Content)
}.

(** The [range] loop of [ProcessLogs]: [s.processLog(log)] on each record in
    turn.  A panic in one record (or the end of the fuel) stops the batch,
    the records after it being left as they are. *)
Fixpoint processEach (s : KeyValueSplitter) (fuel : nat)
    (logArray : list (list Log_Content)) (sink : list Alarm)
    (trace : list (Site * Log_Content)) : Batch * Res unit :=
  match logArray with
  | [] => (mkBatch [] sink trace, Ok tt)
  | log :: rest =>
      match processLog s fuel (mkStore log sink trace) with
      | (st, Ok _) =>
          match processEach s fuel rest (Warnings st) (Appended st) with
          | (b, r) => (mkBatch (Contents st :: Logs b) (Sink b) (Trace b), r)
          end
      | (st, Panic) =>
          (mkBatch (Contents st :: rest) (Warnings st) (Appended st), Panic)
      | (st, OutOfFuel) =>
          (mkBatch (Contents st :: rest) (Warnings st) (Appended st), OutOfFuel)
      end
  end.

(** [ProcessLogs]: processes every record and returns [logArray] itself. *)
Definition ProcessLogs (s : KeyValueSplitter) (fuel : nat) (b : Batch)
    : Batch * Res unit :=
  processEach s fuel (Logs b) (Sink b) (Trace b).

(** Configurations used in the examples: the default one with another source
    key, another delimiter, or quoting switched on. *)
Definition withSourceKey (k : gostring) (s : KeyValueSplitter) : KeyValueSplitter :=
  {| SourceKey := k;
     Delimiter := Delimiter s;
     Separator := Separator s;
     KeepSource := KeepSource s;
     EmptyKeyPrefix := EmptyKeyPrefix s;
     NoSeparatorKeyPrefix := NoSeparatorKeyPrefix s;
     QuoteFlag := QuoteFlag s;
     Quote := Quote s;
     DiscardWhenSeparatorNotFound := DiscardWhenSeparatorNotFound s;
     ErrIfSourceKeyNotFound := ErrIfSourceKeyNotFound s;
     ErrIfSeparatorNotFound := ErrIfSeparatorNotFound s;
     ErrIfKeyIsEmpty := ErrIfKeyIsEmpty s |}.

Definition withDelimiter (d : gostring) (s : KeyValueSplitter) : KeyValueSplitter :=
  {| SourceKey := SourceKey s;
     Delimiter := d;
     Separator := Separator s;
     KeepSource := KeepSource s;
     EmptyKeyPrefix := EmptyKeyPrefix s;
     NoSeparatorKeyPrefix := NoSeparatorKeyPrefix s;
     QuoteFlag := QuoteFlag s;
     Quote := Quote s;
     DiscardWhenSeparatorNotFound := DiscardWhenSeparatorNotFound s;
     ErrIfSourceKeyNotFound := ErrIfSourceKeyNotFound s;
     ErrIfSeparatorNotFound := ErrIfSeparatorNotFound s;
     ErrIfKeyIsEmpty := ErrIfKeyIsEmpty s |}.

Definition withSeparator (p : gostring) (s : KeyValueSplitter) : KeyValueSplitter :=
  {| SourceKey := SourceKey s;
     Delimiter := Delimiter s;
     Separator := p;
     KeepSource := KeepSource s;
     EmptyKeyPrefix := EmptyKeyPrefix s;
     NoSeparatorKeyPrefix := NoSeparatorKeyPrefix s;
     QuoteFlag := QuoteFlag s;
     Quote := Quote s;
     DiscardWhenSeparatorNotFound := DiscardWhenSeparatorNotFound s;
     ErrIfSourceKeyNotFound := ErrIfSourceKeyNotFound s;
     ErrIfSeparatorNotFound := ErrIfSeparatorNotFound s;
     ErrIfKeyIsEmpty := ErrIfKeyIsEmpty s |}.

Definition withQuote (q : gostring) (s : KeyValueSplitter) : KeyValueSplitter :=
  {| SourceKey := SourceKey s;
     Delimiter := Delimiter s;
     Separator := Separator s;
     KeepSource := KeepSource s;
     EmptyKeyPrefix := EmptyKeyPrefix s;
     NoSeparatorKeyPrefix := NoSeparatorKeyPrefix s;
     QuoteFlag := true;
     Quote := q;
     DiscardWhenSeparatorNotFound := DiscardWhenSeparatorNotFound s;
     ErrIfSourceKeyNotFound := ErrIfSourceKeyNotFound s;
     ErrIfSeparatorNotFound := ErrIfSeparatorNotFound s;
     ErrIfKeyIsEmpty := ErrIfKeyIsEmpty s |}.

Definition withDiscard (b : bool) (s : KeyValueSplitter) : KeyValueSplitter :=
  {| SourceKey := SourceKey s;
     Delimiter := Delimiter s;
     Separator := Separator s;
     KeepSource := KeepSource s;
     EmptyKeyPrefix := EmptyKeyPrefix s;
     NoSeparatorKeyPrefix := NoSeparatorKeyPrefix s;
     QuoteFlag := QuoteFlag s;
     Quote := Quote s;
     DiscardWhenSeparatorNotFound := b;
     ErrIfSourceKeyNotFound := ErrIfSourceKeyNotFound s;
     ErrIfSeparatorNotFound := ErrIfSeparatorNotFound s;
     ErrIfKeyIsEmpty := ErrIfKeyIsEmpty s |}.

(** A record with the given fields, nothing logged and nothing appended yet. *)
Definition record (cs : list Log_Content) : Store :=
  {| Contents := cs; Warnings := []; Appended := [] |}.

Definition field (k v : gostring) : Log_Content := {| Key := k; Value := v |}.

(** ** Definitions used in the statements *)

(** The fields appended at [site] among [added]. *)
Definition fieldsAt (site : Site) (added : list (Site * Log_Content))
    : list Log_Content :=
  map snd (filter (fun e => Site_eqb (fst e) site) added).

Definition countSite (site : Site) (added : list (Site * Log_Content)) : Z :=
  Z.of_nat (length (fieldsAt site added)).

(** The history entries that the run from [st] to [st'] added. *)
Definition appendedSince (st st' : Store) : list (Site * Log_Content) :=
  skipn (length (Appended st)) (Appended st').

(** From [st] to [st'] the record got the fields [added] at its end and
    nothing else in it changed; the logger got some more warnings. *)
Definition Grows (st st' : Store) (added : list (Site * Log_Content)) : Prop :=
  Contents st' = Contents st ++ map snd added
  /\ Appended st' = Appended st ++ added
  /\ exists w, Warnings st' = Warnings st ++ w.

(** The keys synthesized in [added] are numbered from [ek] (empty keys) and
    from [nk] (no separator), each site by its own counter. *)
Fixpoint Numbered (s : KeyValueSplitter) (added : list (Site * Log_Content))
    (ek nk : Z) : Prop :=
  match added with
  | [] => True
  | (EmptyKeySite, c) :: r =>
      Key c = EmptyKeyPrefix s ++ strconv.Itoa ek /\ Numbered s r (ek + 1) nk
  | (NoSeparatorSite, c) :: r =>
      Key c = NoSeparatorKeyPrefix s ++ strconv.Itoa nk
      /\ Numbered s r ek (nk + 1)
  | (PlainSite, _) :: r => Numbered s r ek nk
  end.

(** The fields of the record that processing keeps: all of them, in their
    order, but for the first source field when [KeepSource] is off. *)
Fixpoint keptFields (s : KeyValueSplitter) (cs : list Log_Content)
    : list Log_Content :=
  match cs with
  | [] => []
  | c :: r =>
      if isSource s c then (if KeepSource s then c :: r else r)
      else c :: keptFields s r
  end.

(** Whether processing removes a field: the record has a source field and
    [KeepSource] is off. *)
Definition sourceRemoved (s : KeyValueSplitter) (cs : list Log_Content) : bool :=
  negb (KeepSource s) && existsb (isSource s) cs.

(** The source value [":1\tzz\t:3\tyyyy\t:5\tww"]. *)
Definition mixedContent : gostring :=
  str ":1" ++ [tab] ++ str "zz" ++ [tab] ++ str ":3" ++ [tab]
  ++ str "yyyy" ++ [tab] ++ str ":5" ++ [tab] ++ str "ww".

(** Quoting is in force: the test [s.QuoteFlag && len(s.Quote) > 0] of
    [concatQuotePair] and [getValue]. *)
Definition quoting (s : KeyValueSplitter) : bool :=
  QuoteFlag s && (0 <? len (Quote s)).

(** The pair is one that [concatQuotePair] re-indexes: quoting is in force,
    the pair does not end with the quote, and it contains separator+quote
    after its first byte or starts with the quote. *)
Definition opensQuote (s : KeyValueSplitter) (pair : gostring) : bool :=
  quoting s
  && negb (strings.HasSuffix pair (Quote s))
  && ((0 <? strings.Index pair (Separator s ++ Quote s))
      || strings.HasPrefix pair (Quote s)).

(** The number of fields [handlePair] appends: one, unless the pair has no
    separator and such pairs are discarded. *)
Definition pairFields (s : KeyValueSplitter) (pair : gostring) : nat :=
  if (strings.Index pair (Separator s) =? -1) && DiscardWhenSeparatorNotFound s
  then 0 else 1.

(** The source value [a:], a double quote, [bcdef:gh]; used with the double
    quote as the quote. *)
Definition unterminatedQuote : gostring :=
  str "a:" ++ [dquote] ++ str "bcdef:gh".

(** The source value ["a:1\t"]. *)
Definition trailingTab : gostring := str "a:1" ++ [tab].

(** The content made of a double quote, [a] and a tab, and its first pair. *)
Definition openQuoteContent : gostring := [dquote] ++ str "a" ++ [tab].
Definition openQuotePair : gostring := [dquote] ++ str "a".

(** The source value ["a:1\tb:2"]. *)
Definition scenario1 : gostring := str "a:1" ++ [tab] ++ str "b:2".

(** The source value [c:] followed by [x], a tab and [y] in double quotes. *)
Definition scenario4 : gostring :=
  str "c:" ++ [dquote] ++ str "x" ++ [tab] ++ str "y" ++ [dquote].

(** A delimiter of two tabs, the double quote as the quote, and the source
    value [a:] followed by [x], two tabs and [y] in double quotes, then [z]. *)
Definition twoTabs : KeyValueSplitter :=
  withDelimiter [tab; tab] (withQuote [dquote] newKeyValueSplitter).

Definition quotedThenZ : gostring :=
  str "a:" ++ [dquote] ++ str "x" ++ [tab; tab] ++ str "y" ++ [dquote]
  ++ str "z".

(** The states of the loop of [splitKeyValue] after some iterations. *)
Inductive Reaches (s : KeyValueSplitter) : Locals -> Store -> Locals -> Store -> Prop :=
| Reaches_here (l : Locals) (st : Store) : Reaches s l st l st
| Reaches_step (l l1 l2 : Locals) (st st1 st2 : Store) :
    dIdx l < len (content l) ->
    loopBody s l st = (st1, Ok (Continue l1)) ->
    Reaches s l1 st1 l2 st2 ->
    Reaches s l st l2 st2.

(** The configuration [s] with its three diagnostic switches off. *)
Definition silent (s : KeyValueSplitter) : KeyValueSplitter :=
  {| SourceKey := SourceKey s;
     Delimiter := Delimiter s;
     Separator := Separator s;
     KeepSource := KeepSource s;
     EmptyKeyPrefix := EmptyKeyPrefix s;
     NoSeparatorKeyPrefix := NoSeparatorKeyPrefix s;
     QuoteFlag := QuoteFlag s;
     Quote := Quote s;
     DiscardWhenSeparatorNotFound := DiscardWhenSeparatorNotFound s;
     ErrIfSourceKeyNotFound := false;
     ErrIfSeparatorNotFound := false;
     ErrIfKeyIsEmpty := false |}.

(** Two stores hold the same record: the same fields and the same history of
    appends; their warnings may differ. *)
Definition sameRecord (a b : Store) : Prop :=
  Contents a = Contents b /\ Appended a = Appended b.

(** Two outcomes of an iteration go on in the same way: both stop, both
    panic, or both continue with the same content and the same [dIdx]. *)
Definition sameFlow (a b : Res Flow) : Prop :=
  match a, b with
  | Ok Break, Ok Break => True
  | Ok (Continue x), Ok (Continue y) =>
      content x = content y /\ dIdx x = dIdx y
  | Panic, Panic => True
  | OutOfFuel, OutOfFuel => True
  | _, _ => False
  end.

(** * Properties *)

(** ** Strings *)

Lemma len_nonneg (s : gostring) : 0 <= len s.
Proof. unfold len. lia. Qed.

Lemma len_app (a b : gostring) : len (a ++ b) = len a + len b.
Proof. unfold len. rewrite length_app. lia. Qed.

Lemma len_nil_iff (s : gostring) : len s = 0 <-> s = [].
Proof.
  unfold len. destruct s; cbn [length]; split; intros H;
    try reflexivity; try discriminate; lia.
Qed.

Lemma bytes_eqb_eq (a b : gostring) : bytes_eqb a b = true <-> a = b.
Proof.
  revert b. induction a as [|x a IH]; intros [|y b]; cbn; split; intros H;
    try reflexivity; try discriminate.
  - apply andb_true_iff in H. destruct H as [Hx Hr].
    apply Ascii.eqb_eq in Hx. apply IH in Hr. congruence.
  - injection H as -> ->. rewrite Ascii.eqb_refl. cbn. apply IH. reflexivity.
Qed.

Lemma bytes_eqb_refl (a : gostring) : bytes_eqb a a = true.
Proof. apply bytes_eqb_eq. reflexivity. Qed.

Lemma bytes_eqb_neq (a b : gostring) : a <> b -> bytes_eqb a b = false.
Proof.
  intros H. destruct (bytes_eqb a b) eqn:E; [|reflexivity].
  apply bytes_eqb_eq in E. contradiction.
Qed.

Lemma slice_Some (s : gostring) (lo hi : Z) :
  0 <= lo -> lo <= hi -> hi <= len s ->
  slice s lo hi = Some (firstn (Z.to_nat (hi - lo)) (skipn (Z.to_nat lo) s)).
Proof.
  intros H1 H2 H3. unfold slice.
  replace ((0 <=? lo) && (lo <=? hi) && (hi <=? len s)) with true; [reflexivity|].
  symmetry. rewrite !andb_true_iff. repeat split; apply Z.leb_le; assumption.
Qed.

Lemma slice_None (s : gostring) (lo hi : Z) :
  lo < 0 \/ hi < lo \/ len s < hi -> slice s lo hi = None.
Proof.
  intros H. unfold slice.
  replace ((0 <=? lo) && (lo <=? hi) && (hi <=? len s)) with false; [reflexivity|].
  symmetry. rewrite !andb_false_iff, !Z.leb_gt. tauto.
Qed.

Lemma slice_to_Some (s : gostring) (hi : Z) :
  0 <= hi -> hi <= len s -> slice_to s hi = Some (firstn (Z.to_nat hi) s).
Proof.
  intros H1 H2. unfold slice_to. rewrite slice_Some by lia.
  cbn [Z.to_nat skipn]. rewrite Z.sub_0_r. reflexivity.
Qed.

Lemma slice_from_Some (s : gostring) (lo : Z) :
  0 <= lo -> lo <= len s -> slice_from s lo = Some (skipn (Z.to_nat lo) s).
Proof.
  intros H1 H2. unfold slice_from. rewrite slice_Some by lia.
  f_equal. apply firstn_all2. rewrite length_skipn. unfold len. lia.
Qed.

Lemma slice_to_app (a b : gostring) : slice_to (a ++ b) (len a) = Some a.
Proof.
  rewrite slice_to_Some.
  - unfold len. rewrite Nat2Z.id, firstn_app, Nat.sub_diag, firstn_all.
    cbn. rewrite app_nil_r. reflexivity.
  - apply len_nonneg.
  - rewrite len_app. pose proof (len_nonneg b). lia.
Qed.

Lemma slice_from_app (a b : gostring) : slice_from (a ++ b) (len a) = Some b.
Proof.
  rewrite slice_from_Some.
  - unfold len. rewrite Nat2Z.id, skipn_app, Nat.sub_diag, skipn_all.
    reflexivity.
  - apply len_nonneg.
  - rewrite len_app. pose proof (len_nonneg b). lia.
Qed.

Lemma HasPrefix_len (s p : gostring) :
  strings.HasPrefix s p = true -> len p <= len s.
Proof.
  unfold strings.HasPrefix. intros H. apply andb_true_iff in H.
  apply Z.leb_le. tauto.
Qed.

Lemma HasPrefix_app (p r : gostring) : strings.HasPrefix (p ++ r) p = true.
Proof.
  unfold strings.HasPrefix. apply andb_true_iff. split.
  - apply Z.leb_le. rewrite len_app. pose proof (len_nonneg r). lia.
  - rewrite firstn_app, Nat.sub_diag, firstn_all. cbn. rewrite app_nil_r.
    apply bytes_eqb_refl.
Qed.

Lemma HasPrefix_nil_l (p : gostring) : p <> [] -> strings.HasPrefix [] p = false.
Proof.
  intros H. destruct p; [contradiction|]. reflexivity.
Qed.

Lemma IndexFrom_range (s substr : gostring) (i : Z) :
  strings.IndexFrom s substr i = -1
  \/ i <= strings.IndexFrom s substr i
     /\ strings.IndexFrom s substr i + len substr <= i + len s.
Proof.
  revert i. induction s as [|a s IH]; intros i; cbn [strings.IndexFrom].
  - destruct (strings.HasPrefix [] substr) eqn:E; [|now left].
    right. apply HasPrefix_len in E. lia.
  - destruct (strings.HasPrefix (a :: s) substr) eqn:E.
    + right. apply HasPrefix_len in E. lia.
    + destruct (IH (i + 1)) as [H|H]; [now left|right].
      change (a :: s) with ([a] ++ s). rewrite len_app.
      change (len [a]) with 1. lia.
Qed.

Lemma Index_range (s substr : gostring) :
  strings.Index s substr = -1
  \/ 0 <= strings.Index s substr
     /\ strings.Index s substr + len substr <= len s.
Proof. apply (IndexFrom_range s substr 0). Qed.

Lemma Index_app_same (p r : gostring) : strings.Index (p ++ r) p = 0.
Proof.
  unfold strings.Index. destruct (p ++ r) eqn:E; cbn [strings.IndexFrom];
    rewrite <- E, HasPrefix_app; reflexivity.
Qed.

Lemma Index_nil_l (p : gostring) : p <> [] -> strings.Index [] p = -1.
Proof.
  intros H. unfold strings.Index. cbn [strings.IndexFrom].
  rewrite HasPrefix_nil_l by assumption. reflexivity.
Qed.

Lemma Index_nil_r (s : gostring) : strings.Index s [] = 0.
Proof. destruct s; reflexivity. Qed.

(** ** Initialization *)

Lemma Init_Delimiter_nonempty (s : KeyValueSplitter) : Delimiter (Init s) <> [].
Proof.
  cbn. unfold orDefault. destruct (len (Delimiter s) =? 0) eqn:E.
  - discriminate.
  - intros H. rewrite H in E. discriminate.
Qed.

Lemma Init_Separator_nonempty (s : KeyValueSplitter) : Separator (Init s) <> [].
Proof.
  cbn. unfold orDefault. destruct (len (Separator s) =? 0) eqn:E.
  - discriminate.
  - intros H. rewrite H in E. discriminate.
Qed.

(** [Init] changes none of the settings of the default configuration (in Go
    it still attaches the context). *)
Lemma Init_newKeyValueSplitter : Init newKeyValueSplitter = newKeyValueSplitter.
Proof. reflexivity. Qed.

(** ** What a run of the splitter does to the store *)

Lemma Grows_refl (st : Store) : Grows st st [].
Proof.
  unfold Grows. cbn. rewrite !app_nil_r. repeat split.
  exists []. rewrite app_nil_r. reflexivity.
Qed.

Lemma Grows_trans (a b c : Store) (x y : list (Site * Log_Content)) :
  Grows a b x -> Grows b c y -> Grows a c (x ++ y).
Proof.
  intros (H1 & H2 & w1 & H3) (K1 & K2 & w2 & K3). unfold Grows.
  rewrite K1, K2, K3, H1, H2, H3, map_app, <- !app_assoc.
  repeat split. exists (w1 ++ w2). reflexivity.
Qed.

Lemma Grows_appendedSince (st st' : Store) (added : list (Site * Log_Content)) :
  Grows st st' added -> appendedSince st st' = added.
Proof.
  intros (_ & H & _). unfold appendedSince. rewrite H, skipn_app, skipn_all.
  rewrite Nat.sub_diag. reflexivity.
Qed.

Lemma countSite_app (site : Site) (a b : list (Site * Log_Content)) :
  countSite site (a ++ b) = countSite site a + countSite site b.
Proof.
  unfold countSite, fieldsAt.
  rewrite filter_app, map_app, length_app. lia.
Qed.

Lemma countSite_nonneg (site : Site) (a : list (Site * Log_Content)) :
  0 <= countSite site a.
Proof. unfold countSite. lia. Qed.

Lemma countSite_cons (site site' : Site) (c : Log_Content)
    (a : list (Site * Log_Content)) :
  countSite site ((site', c) :: a)
  = (if Site_eqb site' site then 1 else 0) + countSite site a.
Proof.
  unfold countSite, fieldsAt. cbn [filter fst].
  destruct (Site_eqb site' site); cbn [map length]; lia.
Qed.

Lemma Numbered_app (s : KeyValueSplitter) (a b : list (Site * Log_Content))
    (ek nk : Z) :
  Numbered s a ek nk ->
  Numbered s b (ek + countSite EmptyKeySite a) (nk + countSite NoSeparatorSite a) ->
  Numbered s (a ++ b) ek nk.
Proof.
  revert ek nk. induction a as [|[site c] a IH]; intros ek nk Ha Hb.
  - cbn in Hb. rewrite !Z.add_0_r in Hb. exact Hb.
  - change (((site, c) :: a) ++ b) with ((site, c) :: (a ++ b)).
    rewrite !countSite_cons in Hb.
    destruct site; cbn [Numbered Site_eqb] in *;
      rewrite ?Z.add_0_l, ?Z.add_assoc in Hb.
    + split; [tauto|]. apply IH; [tauto | exact Hb].
    + split; [tauto|]. apply IH; [tauto | exact Hb].
    + apply IH; [tauto | exact Hb].
Qed.

Lemma Numbered_nth_empty (s : KeyValueSplitter)
    (added : list (Site * Log_Content)) (ek nk : Z) (n : nat) (c : Log_Content) :
  Numbered s added ek nk ->
  nth_error (fieldsAt EmptyKeySite added) n = Some c ->
  Key c = EmptyKeyPrefix s ++ strconv.Itoa (ek + Z.of_nat n).
Proof.
  revert ek nk n. induction added as [|[site c'] r IH]; intros ek nk n HN Hn.
  - destruct n; discriminate.
  - destruct site; cbn [Numbered] in HN; unfold fieldsAt in Hn; cbn in Hn.
    + apply (IH ek (nk + 1) n); [tauto | exact Hn].
    + destruct n as [|n].
      * cbn in Hn. injection Hn as <-. rewrite Z.add_0_r. tauto.
      * cbn in Hn. replace (ek + Z.of_nat (S n)) with (ek + 1 + Z.of_nat n) by lia.
        apply (IH (ek + 1) nk n); [tauto | exact Hn].
    + apply (IH ek nk n); [tauto | exact Hn].
Qed.

Lemma Numbered_nth_noSeparator (s : KeyValueSplitter)
    (added : list (Site * Log_Content)) (ek nk : Z) (n : nat) (c : Log_Content) :
  Numbered s added ek nk ->
  nth_error (fieldsAt NoSeparatorSite added) n = Some c ->
  Key c = NoSeparatorKeyPrefix s ++ strconv.Itoa (nk + Z.of_nat n).
Proof.
  revert ek nk n. induction added as [|[site c'] r IH]; intros ek nk n HN Hn.
  - destruct n; discriminate.
  - destruct site; cbn [Numbered] in HN; unfold fieldsAt in Hn; cbn in Hn.
    + destruct n as [|n].
      * cbn in Hn. injection Hn as <-. rewrite Z.add_0_r. tauto.
      * cbn in Hn. replace (nk + Z.of_nat (S n)) with (nk + 1 + Z.of_nat n) by lia.
        apply (IH ek (nk + 1) n); [tauto | exact Hn].
    + apply (IH (ek + 1) nk n); [tauto | exact Hn].
    + apply (IH ek nk n); [tauto | exact Hn].
Qed.

Ltac split_cases :=
  repeat (cbn beta iota delta [fst snd];
          match goal with
          | |- context [if ?b then _ else _] => destruct b eqn:?
          | |- context [match ?o with Some _ => _ | None => _ end] =>
              destruct o eqn:?
          end).

Ltac solve_warnings :=
  first [ exists []; rewrite app_nil_r; reflexivity | eexists; reflexivity ].

Ltac solve_grows :=
  unfold Grows; cbn [Contents Warnings Appended map snd fst];
  rewrite ?app_nil_r;
  split; [reflexivity | split; [reflexivity | solve_warnings]].

Ltac solve_counters :=
  let H := fresh in
  intros ? ? H;
  first [ discriminate H
        | injection H as <- <-; rewrite ?countSite_cons;
          unfold countSite; cbn; lia ].

Lemma handlePair_spec (s : KeyValueSplitter) (pair : gostring) (ek nk : Z)
    (st : Store) :
  exists added,
    Grows st (fst (handlePair s pair ek nk st)) added
    /\ Numbered s added ek nk
    /\ forall ek' nk', snd (handlePair s pair ek nk st) = Ok (ek', nk') ->
         ek' = ek + countSite EmptyKeySite added
         /\ nk' = nk + countSite NoSeparatorSite added.
Proof.
  unfold handlePair, bind, when, lift, ret, Warningf, appendContent.
  split_cases.
  all: cbn [fst snd Contents Warnings Appended].
  all: first
    [ exists [];
      solve [split; [solve_grows | split; [exact I | solve_counters]]]
    | eexists [(_, _)];
      solve [split; [solve_grows
                    | split; [cbn; repeat split; reflexivity | solve_counters]]] ].
Qed.

Lemma loopBody_spec (s : KeyValueSplitter) (l : Locals) (st : Store) :
  exists added,
    Grows st (fst (loopBody s l st)) added
    /\ Numbered s added (emptyKeyIndex l) (noSeparatorKeyIndex l)
    /\ forall l', snd (loopBody s l st) = Ok (Continue l') ->
         emptyKeyIndex l' = emptyKeyIndex l + countSite EmptyKeySite added
         /\ noSeparatorKeyIndex l'
            = noSeparatorKeyIndex l + countSite NoSeparatorSite added.
Proof.
  unfold loopBody, bind, lift, ret.
  split_cases.
  all: try (exists []; split; [apply Grows_refl | split; [exact I|discriminate]]).
  all: match goal with
       | |- context [handlePair ?s ?p ?e ?n ?st] =>
           destruct (handlePair_spec s p e n st) as (added & HG & HN & HC);
           destruct (handlePair s p e n st) as [st' [[ek' nk']| |]]
       end.
  all: cbn [fst snd] in *.
  all: split_cases.
  all: exists added; split; [exact HG | split; [exact HN|]].
  all: intros l' H; try discriminate H.
  all: injection H as <-; cbn [emptyKeyIndex noSeparatorKeyIndex].
  all: apply HC; reflexivity.
Qed.

(** Whatever the outcome of the loop (finished, panicked or still running
    when the fuel ends), the record has only grown at its end, and the keys
    synthesized are numbered by the two counters. *)
Lemma splitLoop_spec (s : KeyValueSplitter) (fuel : nat) :
  forall (l : Locals) (st : Store),
  exists added,
    Grows st (fst (splitLoop s fuel l st)) added
    /\ Numbered s added (emptyKeyIndex l) (noSeparatorKeyIndex l).
Proof.
  induction fuel as [|fuel IH]; intros l st; cbn [splitLoop].
  - destruct (dIdx l <? len (content l));
      exists []; (split; [apply Grows_refl | exact I]).
  - destruct (dIdx l <? len (content l)).
    2: exists []; (split; [apply Grows_refl | exact I]).
    unfold bind.
    destruct (loopBody_spec s l st) as (a1 & HG & HN & HC).
    destruct (loopBody s l st) as [st1 [[l1|]| |]]; cbn [fst snd] in *.
    + destruct (IH l1 st1) as (a2 & HG2 & HN2).
      destruct (HC l1 eq_refl) as [He Hn]. rewrite He, Hn in HN2.
      exists (a1 ++ a2). split.
      * eapply Grows_trans; eassumption.
      * apply Numbered_app; assumption.
    + exists a1. split; assumption.
    + exists a1. split; assumption.
    + exists a1. split; assumption.
Qed.

(** ** Processing a record *)

Lemma keptFields_length (s : KeyValueSplitter) (cs : list Log_Content) :
  (length (keptFields s cs) + (if sourceRemoved s cs then 1 else 0)
   = length cs)%nat.
Proof.
  unfold sourceRemoved. induction cs as [|c r IH]; cbn [keptFields existsb].
  - rewrite andb_false_r. reflexivity.
  - destruct (isSource s c); cbn [orb].
    + rewrite andb_true_r. destruct (KeepSource s); cbn; lia.
    + cbn [length]. lia.
Qed.

Lemma removeContent_at (pre rest : list Log_Content) (c : Log_Content) :
  firstn (length pre) (pre ++ c :: rest) ++ skipn (S (length pre)) (pre ++ c :: rest)
  = pre ++ rest.
Proof.
  rewrite firstn_app, Nat.sub_diag, firstn_all. cbn [firstn].
  rewrite app_nil_r. f_equal.
  rewrite skipn_app, skipn_all2 by lia.
  replace (S (length pre) - length pre)%nat with 1%nat by lia. reflexivity.
Qed.

Lemma rangeContents_spec (s : KeyValueSplitter) (fuel : nat) :
  forall (rest pre : list Log_Content) (st : Store),
    Contents st = pre ++ rest ->
    exists added,
      Contents (fst (rangeContents s fuel rest (length pre) st))
      = pre ++ keptFields s rest ++ map snd added
      /\ Appended (fst (rangeContents s fuel rest (length pre) st))
         = Appended st ++ added.
Proof.
  induction rest as [|c rest IH]; intros pre st Hst;
    cbn [rangeContents keptFields].
  - exists []. cbn. rewrite Hst, !app_nil_r. split; reflexivity.
  - destruct (isSource s c).
    + unfold bind, when, splitKeyValue.
      destruct (KeepSource s); cbn [negb].
      * cbn [ret].
        destruct (splitLoop_spec s fuel (mkLocals (Value c) 0 0 0) st)
          as (added & (HC & HA & _) & _).
        destruct (splitLoop s fuel (mkLocals (Value c) 0 0 0) st)
          as [st1 [[]| |]]; cbn [fst snd ret] in *;
          exists added; rewrite HC, HA, Hst, <- app_assoc; split; reflexivity.
      * cbn [removeContent].
        match goal with
        | |- context [splitLoop s fuel ?l ?st0] =>
            destruct (splitLoop_spec s fuel l st0)
              as (added & (HC & HA & _) & _);
            destruct (splitLoop s fuel l st0) as [st1 [[]| |]]
        end; cbn [fst snd ret Contents Appended] in *;
          exists added;
          rewrite HC, HA, Hst, removeContent_at, <- app_assoc;
          split; reflexivity.
    + replace (S (length pre)) with (length (pre ++ [c]))
        by (rewrite length_app; cbn; lia).
      destruct (IH (pre ++ [c]) st) as (added & Hc & Ha).
      * rewrite Hst, <- app_assoc. reflexivity.
      * exists added. rewrite Hc, Ha, <- app_assoc. split; reflexivity.
Qed.

Lemma rangeContents_absent (s : KeyValueSplitter) (fuel : nat) :
  forall (rest : list Log_Content) (idx : nat) (st : Store),
    existsb (isSource s) rest = false ->
    rangeContents s fuel rest idx st = (st, Ok false).
Proof.
  induction rest as [|c rest IH]; intros idx st H; cbn [rangeContents].
  - reflexivity.
  - cbn [existsb] in H. apply orb_false_iff in H. destruct H as [Hc Hr].
    rewrite Hc. apply IH. exact Hr.
Qed.

Lemma no_source_field (s : KeyValueSplitter) (cs : list Log_Content) :
  (forall c, In c cs -> Key c <> SourceKey s) ->
  (SourceKey s = [] -> cs = []) ->
  existsb (isSource s) cs = false.
Proof.
  intros Hkey Hempty. destruct (existsb (isSource s) cs) eqn:E; [|reflexivity].
  apply existsb_exists in E. destruct E as (c & Hin & Hc).
  unfold isSource in Hc. apply orb_true_iff in Hc. destruct Hc as [Hc|Hc].
  - apply Z.eqb_eq, len_nil_iff in Hc. rewrite (Hempty Hc) in Hin.
    destruct Hin.
  - apply bytes_eqb_eq in Hc. exfalso. apply (Hkey c Hin). congruence.
Qed.

(** ** The claims about [processLog] *)

(** C6: processing a record leaves the fields it keeps untouched and in their
    order: whatever the configuration, the fuel and the outcome, the fields
    afterwards are [keptFields] (the original fields, without the first
    source field when [KeepSource] is off) followed by the fields that
    [splitKeyValue] appended during the call; so the number of fields is the
    original one plus the number of appended fields, less one exactly when
    the source field was removed. *)
Theorem processLog_frame (s : KeyValueSplitter) (fuel : nat) (st : Store) :
  let st' := fst (processLog s fuel st) in
  let new := map snd (appendedSince st st') in
  Contents st' = keptFields s (Contents st) ++ new
  /\ (length (Contents st') + (if sourceRemoved s (Contents st) then 1 else 0)
      = length (Contents st) + length new)%nat.
Proof.
  intros st' new.
  destruct (rangeContents_spec s fuel (Contents st) [] st eq_refl)
    as (added & Hc & Ha).
  cbn [length app] in Hc, Ha.
  assert (H : Contents st' = keptFields s (Contents st) ++ map snd added
              /\ Appended st' = Appended st ++ added).
  { subst st'. unfold processLog, bind, getContents at 1 2.
    destruct (rangeContents s fuel (Contents st) 0 st) as [st1 [hasKey| |]];
      cbn [fst] in *; try (split; assumption).
    unfold when. destruct (negb hasKey && ErrIfSourceKeyNotFound s);
      cbn; split; assumption. }
  destruct H as [HC HA].
  assert (Hnew : new = map snd added).
  { subst new. unfold appendedSince.
    rewrite HA, skipn_app, skipn_all, Nat.sub_diag. reflexivity. }
  rewrite Hnew. split; [exact HC|].
  rewrite HC, length_app. pose proof (keptFields_length s (Contents st)). lia.
Qed.

(** C8: when no field of the record matches the source key (and the record
    is empty if the source key is the empty string), processing returns
    normally and the record's fields are the same as before; the only effect
    is the warning sent when [ErrIfSourceKeyNotFound] is set. *)
Theorem processLog_source_absent (s : KeyValueSplitter) (fuel : nat)
    (st : Store) :
  (forall c, In c (Contents st) -> Key c <> SourceKey s) ->
  (SourceKey s = [] -> Contents st = []) ->
  snd (processLog s fuel st) = Ok tt
  /\ Contents (fst (processLog s fuel st)) = Contents st
  /\ Appended (fst (processLog s fuel st)) = Appended st
  /\ Warnings (fst (processLog s fuel st))
     = Warnings st
       ++ (if ErrIfSourceKeyNotFound s
           then [mkAlarm (str "KV_SPLITTER_ALARM")
                         (str "can not find key: " ++ SourceKey s)]
           else []).
Proof.
  intros Hkey Hempty.
  pose proof (no_source_field s (Contents st) Hkey Hempty) as Habs.
  assert (E : processLog s fuel st
              = when (ErrIfSourceKeyNotFound s)
                     (Warningf (str "can not find key: " ++ SourceKey s)) st).
  { unfold processLog, bind, getContents.
    rewrite (rangeContents_absent s fuel _ 0 st Habs). reflexivity. }
  rewrite E. unfold when.
  destruct (ErrIfSourceKeyNotFound s); cbn; rewrite ?app_nil_r;
    repeat split; reflexivity.
Qed.

Lemma processLog_source_absent_witness :
  let s := withSourceKey (str "msg") newKeyValueSplitter in
  let st := record [field (str "k") (str "v")] in
  snd (processLog s 5 st) = Ok tt
  /\ Contents (fst (processLog s 5 st)) = [field (str "k") (str "v")]
  /\ Warnings (fst (processLog s 5 st))
     = [mkAlarm (str "KV_SPLITTER_ALARM") (str "can not find key: msg")].
Proof.
  intros s st.
  destruct (processLog_source_absent s 5 st) as (H1 & H2 & _ & H4).
  - intros c [<-|[]]. cbn. discriminate.
  - cbn. discriminate.
  - split; [exact H1 | split; [exact H2 | exact H4]].
Defined.

(** ** The claims about the counters *)

(** C7: in one call of [splitKeyValue], from any store and with any outcome,
    the fields of the record afterwards are the earlier ones followed by the
    fields the call appended; among these, the [n]-th (from 0) field whose
    key was synthesized for an empty key has the key
    [EmptyKeyPrefix + Itoa(n)], and the [n]-th (from 0) field appended for a
    pair without separator has the key [NoSeparatorKeyPrefix + Itoa(n)]:
    each site is counted on its own, from 0 in every call. *)
Theorem synthesized_keys_numbered (s : KeyValueSplitter) (fuel : nat)
    (content : gostring) (st : Store) (n : nat) (c : Log_Content) :
  let st' := fst (splitKeyValue s fuel content st) in
  let added := appendedSince st st' in
  Contents st' = Contents st ++ map snd added
  /\ (nth_error (fieldsAt EmptyKeySite added) n = Some c ->
      Key c = EmptyKeyPrefix s ++ strconv.Itoa (Z.of_nat n))
  /\ (nth_error (fieldsAt NoSeparatorSite added) n = Some c ->
      Key c = NoSeparatorKeyPrefix s ++ strconv.Itoa (Z.of_nat n)).
Proof.
  intros st' added.
  destruct (splitLoop_spec s fuel (mkLocals content 0 0 0) st)
    as (a & HG & HN).
  fold (splitKeyValue s fuel content) in HG. fold st' in HG.
  assert (Ha : added = a) by (apply Grows_appendedSince; exact HG).
  rewrite Ha. cbn [emptyKeyIndex noSeparatorKeyIndex] in HN.
  split; [apply HG|]. split; intros Hn.
  - apply (Numbered_nth_empty s a 0 0 n c HN Hn).
  - apply (Numbered_nth_noSeparator s a 0 0 n c HN Hn).
Qed.

Lemma synthesized_keys_numbered_witness :
  let added :=
    appendedSince (record [])
      (fst (splitKeyValue newKeyValueSplitter 9 mixedContent (record []))) in
  (nth_error (fieldsAt EmptyKeySite added) 1 = Some (field (str "empty_key_1") (str "3"))
   /\ Key (field (str "empty_key_1") (str "3")) = str "empty_key_" ++ strconv.Itoa 1)
  /\ (nth_error (fieldsAt NoSeparatorSite added) 1
      = Some (field (str "no_separator_key_1") (str "yyyy"))
      /\ Key (field (str "no_separator_key_1") (str "yyyy"))
         = str "no_separator_key_" ++ strconv.Itoa 1).
Proof.
  intros added. split; split.
  - vm_compute. reflexivity.
  - apply (proj1 (proj2 (synthesized_keys_numbered newKeyValueSplitter 9
             mixedContent (record []) 1 (field (str "empty_key_1") (str "3"))))).
    vm_compute. reflexivity.
  - vm_compute. reflexivity.
  - apply (proj2 (proj2 (synthesized_keys_numbered newKeyValueSplitter 9
             mixedContent (record []) 1
             (field (str "no_separator_key_1") (str "yyyy"))))).
    vm_compute. reflexivity.
Defined.

(** ** Quoting *)

Lemma getValue_total (s : KeyValueSplitter) (value : gostring) :
  exists v, getValue s value = Some v.
Proof.
  unfold getValue.
  destruct (QuoteFlag s && (0 <? len (Quote s))); [|eauto].
  destruct ((2 * len (Quote s) <=? len value)
            && strings.HasPrefix value (Quote s)
            && strings.HasSuffix value (Quote s)) eqn:E; [|eauto].
  rewrite !andb_true_iff in E. destruct E as [[E _] _].
  apply Z.leb_le in E. pose proof (len_nonneg (Quote s)).
  rewrite slice_Some by lia. eauto.
Qed.

Lemma getValue_off (s : KeyValueSplitter) (value : gostring) :
  quoting s = false -> getValue s value = Some value.
Proof. unfold quoting, getValue. intros ->. reflexivity. Qed.

Lemma concatQuotePair_same (s : KeyValueSplitter) (pair content : gostring)
    (dIdx : Z) :
  opensQuote s pair = false ->
  0 <= dIdx + 1 <= len content ->
  concatQuotePair s pair content dIdx = Some (pair, dIdx).
Proof.
  unfold opensQuote, quoting, concatQuotePair. intros H Hd.
  destruct (QuoteFlag s && (0 <? len (Quote s))
            && negb (strings.HasSuffix pair (Quote s))); [|reflexivity].
  cbn [andb] in H. rewrite H.
  rewrite slice_from_Some by lia. reflexivity.
Qed.

Lemma opensQuote_off (s : KeyValueSplitter) (pair : gostring) :
  quoting s = false -> opensQuote s pair = false.
Proof. unfold opensQuote. intros ->. reflexivity. Qed.

Lemma concatQuotePair_off (s : KeyValueSplitter) (pair content : gostring)
    (dIdx : Z) :
  quoting s = false -> concatQuotePair s pair content dIdx = Some (pair, dIdx).
Proof.
  unfold quoting, concatQuotePair. intros ->. reflexivity.
Qed.

(** ** One pair *)

(** [handlePair] never panics, and appends [pairFields] fields. *)
Lemma handlePair_ok (s : KeyValueSplitter) (pair : gostring) (ek nk : Z)
    (st : Store) :
  exists st' ek' nk',
    handlePair s pair ek nk st = (st', Ok (ek', nk'))
    /\ length (Contents st') = (length (Contents st) + pairFields s pair)%nat.
Proof.
  unfold handlePair, pairFields.
  destruct (Index_range pair (Separator s)) as [Hp|[Hp0 Hp1]].
  - rewrite Hp. cbn [Z.eqb andb].
    destruct (getValue_total s pair) as (v & Hv).
    unfold bind, when, lift, ret, Warningf, appendContent. rewrite Hv.
    destruct (ErrIfSeparatorNotFound s), (DiscardWhenSeparatorNotFound s);
      cbn; do 3 eexists; (split; [reflexivity|]); cbn;
      rewrite ?length_app; cbn; lia.
  - replace (strings.Index pair (Separator s) =? -1) with false
      by (symmetry; apply Z.eqb_neq; lia).
    cbn [andb]. pose proof (len_nonneg (Separator s)).
    rewrite slice_to_Some, slice_from_Some by lia.
    unfold bind, lift. cbn beta iota.
    match goal with
    | |- context [getValue s ?r] => destruct (getValue_total s r) as (v & Hv)
    end.
    rewrite Hv. unfold when, ret, Warningf, appendContent.
    destruct (len _ =? 0), (ErrIfKeyIsEmpty s);
      cbn; do 3 eexists; (split; [reflexivity|]); cbn;
      rewrite ?length_app; cbn; lia.
Qed.

(** ** One iteration *)

(** An iteration whose pair is not re-indexed by [concatQuotePair]: the pair
    is the content up to the first delimiter (all of it when there is none),
    it is handled, and the loop goes on with what follows the delimiter. *)
Lemma loopBody_plain (s : KeyValueSplitter) (l : Locals) (st : Store) :
  let d := strings.Index (content l) (Delimiter s) in
  let pair := if d =? -1 then content l else firstn (Z.to_nat d) (content l) in
  Delimiter s <> [] ->
  opensQuote s pair = false ->
  loopBody s l st
  = (r <- handlePair s pair (emptyKeyIndex l) (noSeparatorKeyIndex l) ;;
     ret (if d =? -1 then Break
          else Continue
                 (mkLocals (skipn (Z.to_nat (d + len (Delimiter s))) (content l))
                           d (fst r) (snd r)))) st.
Proof.
  intros d pair Hdel Hq. unfold loopBody. fold d.
  assert (Hlen : 0 < len (Delimiter s)).
  { pose proof (len_nonneg (Delimiter s)).
    destruct (Z.eq_dec (len (Delimiter s)) 0) as [E|E]; [|lia].
    apply len_nil_iff in E. contradiction. }
  destruct (Index_range (content l) (Delimiter s)) as [Hd|[Hd0 Hd1]];
    fold d in Hd || fold d in Hd0, Hd1.
  - assert (He : (d =? -1) = true) by (rewrite Hd; reflexivity).
    subst pair. rewrite He in *.
    unfold bind at 1 2. cbn [ret].
    rewrite (concatQuotePair_same s (content l) (content l) d Hq)
      by (pose proof (len_nonneg (content l)); lia).
    cbn [lift fst snd]. unfold bind.
    destruct (handlePair s (content l) (emptyKeyIndex l)
                (noSeparatorKeyIndex l) st) as [st1 [[ek' nk']| |]];
      try reflexivity.
    rewrite He. reflexivity.
  - assert (Hne : (d =? -1) = false) by (apply Z.eqb_neq; lia).
    subst pair. rewrite Hne in *.
    unfold bind at 1 2. rewrite slice_to_Some by lia. cbn [lift].
    rewrite (concatQuotePair_same s _ (content l) d Hq) by lia.
    cbn [lift fst snd]. unfold bind.
    destruct (handlePair s _ (emptyKeyIndex l) (noSeparatorKeyIndex l) st)
      as [st1 [[ek' nk']| |]]; try reflexivity.
    rewrite Hne.
    replace (d + len (Delimiter s) <=? len (content l)) with true
      by (symmetry; apply Z.leb_le; lia).
    rewrite slice_from_Some by lia. reflexivity.
Qed.

(** ** Termination when quoting is off *)

Lemma splitLoop_halts_quoting_off (s : KeyValueSplitter) :
  quoting s = false ->
  Delimiter s <> [] ->
  forall (fuel : nat) (l : Locals) (st : Store),
    0 <= dIdx l ->
    (length (content l) <= fuel)%nat ->
    snd (splitLoop s fuel l st) = Ok tt.
Proof.
  intros Hq Hdel.
  assert (Hlen : 0 < len (Delimiter s)).
  { pose proof (len_nonneg (Delimiter s)).
    destruct (Z.eq_dec (len (Delimiter s)) 0) as [E|E]; [|lia].
    apply len_nil_iff in E. contradiction. }
  induction fuel as [|fuel IH]; intros l st Hd Hfuel; cbn [splitLoop].
  - replace (dIdx l <? len (content l)) with false; [reflexivity|].
    symmetry. apply Z.ltb_ge. unfold len. lia.
  - destruct (dIdx l <? len (content l)) eqn:Hguard; [|reflexivity].
    apply Z.ltb_lt in Hguard.
    unfold bind at 1.
    rewrite loopBody_plain by (try assumption; apply opensQuote_off; exact Hq).
    unfold bind at 1.
    match goal with
    | |- context [handlePair s ?p ?e ?n st] =>
        destruct (handlePair_ok s p e n st) as (st1 & ek' & nk' & Hh & _);
        rewrite Hh
    end.
    cbn [ret fst snd].
    destruct (Index_range (content l) (Delimiter s)) as [Hi|[Hi0 Hi1]].
    + rewrite Hi. reflexivity.
    + replace (strings.Index (content l) (Delimiter s) =? -1) with false
        by (symmetry; apply Z.eqb_neq; lia).
      apply IH; cbn [dIdx content]; [lia|].
      rewrite length_skipn. unfold len in *. lia.
Qed.

Lemma nonempty_len (s : gostring) : s <> [] -> 0 < len s.
Proof.
  intros H. pose proof (len_nonneg s).
  destruct (Z.eq_dec (len s) 0) as [E|E]; [|lia].
  apply len_nil_iff in E. contradiction.
Qed.

Lemma opensQuote_nil (s : KeyValueSplitter) : opensQuote s [] = false.
Proof.
  unfold opensQuote, quoting.
  destruct (QuoteFlag s); [|reflexivity].
  destruct (0 <? len (Quote s)) eqn:E; [|reflexivity]. cbn [andb].
  apply Z.ltb_lt in E.
  assert (Hq : Quote s <> []) by (intros H; rewrite H in E; change (len []) with 0 in E; lia).
  rewrite HasPrefix_nil_l by exact Hq.
  rewrite Index_nil_l by (destruct (Separator s); cbn; [exact Hq|discriminate]).
  rewrite andb_false_r. reflexivity.
Qed.

Lemma getValue_nil (s : KeyValueSplitter) : getValue s [] = Some [].
Proof.
  unfold getValue. destruct (QuoteFlag s && (0 <? len (Quote s))) eqn:E;
    [|reflexivity].
  apply andb_true_iff in E. destruct E as [_ E]. apply Z.ltb_lt in E.
  replace (2 * len (Quote s) <=? len []) with false; [reflexivity|].
  symmetry. apply Z.leb_gt. change (len []) with 0. lia.
Qed.

(** The empty pair, when the separator is not empty: it has no separator. *)
Lemma handlePair_nil (s : KeyValueSplitter) (ek nk : Z) (st : Store) :
  Separator s <> [] ->
  handlePair s [] ek nk st
  = (when (ErrIfSeparatorNotFound s)
          (Warningf (str "can not find separator in ")) ;;;
     if negb (DiscardWhenSeparatorNotFound s) then
       appendContent NoSeparatorSite
         (field (NoSeparatorKeyPrefix s ++ strconv.Itoa nk) []) ;;;
       ret (ek, nk + 1)
     else ret (ek, nk)) st.
Proof.
  intros Hsep. unfold handlePair. rewrite Index_nil_l by exact Hsep.
  change (-1 =? -1) with true. cbn beta iota. rewrite app_nil_r.
  unfold bind. destruct (when _ _ st) as [st1 [[]| |]]; try reflexivity.
  rewrite getValue_nil. destruct (DiscardWhenSeparatorNotFound s); reflexivity.
Qed.

(** A source value that begins with the delimiter: the first iteration
    handles the empty pair and the loop goes on with the rest. *)
Lemma splitKeyValue_leading_delimiter (s : KeyValueSplitter) (rest : gostring)
    (fuel : nat) (st : Store) :
  Delimiter s <> [] ->
  splitKeyValue s (S fuel) (Delimiter s ++ rest) st
  = (r <- handlePair s [] 0 0 ;;
     splitLoop s fuel (mkLocals rest 0 (fst r) (snd r))) st.
Proof.
  intros Hdel. pose proof (nonempty_len _ Hdel) as Hlen.
  unfold splitKeyValue. cbn [splitLoop dIdx content].
  replace (0 <? len (Delimiter s ++ rest)) with true
    by (symmetry; apply Z.ltb_lt; rewrite len_app;
        pose proof (len_nonneg rest); lia).
  unfold bind at 1.
  rewrite loopBody_plain; cbn [content emptyKeyIndex noSeparatorKeyIndex];
    rewrite ?Index_app_same; cbn [Z.eqb Z.to_nat firstn];
    try assumption; try apply opensQuote_nil.
  unfold bind.
  destruct (handlePair s [] 0 0 st) as [st1 [[ek' nk']| |]]; try reflexivity.
  cbn [ret fst snd Z.add].
  unfold len. rewrite Nat2Z.id, skipn_app, skipn_all, Nat.sub_diag.
  reflexivity.
Qed.

(** ** The claims about [splitKeyValue] *)

(** C10: for an initialized configuration with quoting off and a source value
    that begins with the delimiter, the first pair is the empty string and
    goes through the no-separator branch.  When such pairs are kept, the run
    is: the warning (if enabled), the append of
    [NoSeparatorKeyPrefix + "0"] with the empty value, then the loop on what
    follows the delimiter with the no-separator counter at 1, so this field comes before
    every other appended field.  When they are discarded, the run is the
    warning (if enabled) and then the loop on what follows, both counters
    still at 0: nothing is appended for the empty pair.  With fuel for the
    rest of the value, the call returns normally. *)
Theorem leading_delimiter_pair (s0 : KeyValueSplitter) (rest : gostring)
    (fuel : nat) (st : Store) :
  let s := Init s0 in
  let warned :=
    when (ErrIfSeparatorNotFound s)
         (Warningf (str "can not find separator in ")) in
  let first := field (NoSeparatorKeyPrefix s ++ str "0") [] in
  let run := splitKeyValue s (S fuel) (Delimiter s ++ rest) st in
  QuoteFlag s0 = false ->
  (DiscardWhenSeparatorNotFound s = false ->
     run = (warned ;;; appendContent NoSeparatorSite first ;;;
            splitLoop s fuel (mkLocals rest 0 0 1)) st
     /\ exists more, Contents (fst run) = Contents st ++ first :: more)
  /\ (DiscardWhenSeparatorNotFound s = true ->
      run = (warned ;;; splitLoop s fuel (mkLocals rest 0 0 0)) st)
  /\ ((length rest <= fuel)%nat -> snd run = Ok tt).
Proof.
  intros s warned first run Hq.
  pose proof (Init_Delimiter_nonempty s0) as Hdel. fold s in Hdel.
  pose proof (Init_Separator_nonempty s0) as Hsep. fold s in Hsep.
  assert (Hquoting : quoting s = false).
  { unfold quoting. subst s. cbn [Init QuoteFlag]. rewrite Hq. reflexivity. }
  assert (Hrun : run = (r <- handlePair s [] 0 0 ;;
                        splitLoop s fuel (mkLocals rest 0 (fst r) (snd r))) st).
  { subst run. apply splitKeyValue_leading_delimiter. exact Hdel. }
  assert (Hkeep : DiscardWhenSeparatorNotFound s = false ->
            run = (warned ;;; appendContent NoSeparatorSite first ;;;
                   splitLoop s fuel (mkLocals rest 0 0 1)) st).
  { intros Hd. rewrite Hrun. unfold bind at 1.
    rewrite (handlePair_nil s 0 0 st Hsep). rewrite Hd. cbn [negb].
    fold warned. change (strconv.Itoa 0) with (str "0"). fold first.
    unfold bind.
    destruct (warned st) as [st1 [[]| |]]; reflexivity. }
  split; [|split].
  - intros Hd. split; [apply Hkeep; exact Hd|].
    rewrite (Hkeep Hd). unfold bind, warned, when, Warningf, ret, appendContent.
    destruct (ErrIfSeparatorNotFound s); cbn [Contents];
      match goal with
      | |- context [splitLoop s fuel ?l ?st0] =>
          destruct (splitLoop_spec s fuel l st0) as (added & (HC & _) & _)
      end;
      exists (map snd added); rewrite HC; cbn [Contents];
      rewrite <- app_assoc; reflexivity.
  - intros Hd. rewrite Hrun. unfold bind at 1.
    rewrite (handlePair_nil s 0 0 st Hsep). rewrite Hd. cbn [negb].
    fold warned. unfold bind.
    destruct (warned st) as [st1 [[]| |]]; reflexivity.
  - intros Hfuel. rewrite Hrun. unfold bind.
    destruct (handlePair_ok s [] 0 0 st) as (st1 & ek' & nk' & Hh & _).
    rewrite Hh. cbn [fst snd].
    apply splitLoop_halts_quoting_off; try assumption; cbn [dIdx content]; lia.
Qed.

Lemma leading_delimiter_pair_witness :
  let run :=
    splitKeyValue newKeyValueSplitter 6 ([tab] ++ str "abc:d") (record []) in
  QuoteFlag newKeyValueSplitter = false
  /\ (exists more,
        Contents (fst run) = field (str "no_separator_key_0") [] :: more)
  /\ snd run = Ok tt.
Proof.
  intros run.
  destruct (leading_delimiter_pair newKeyValueSplitter (str "abc:d") 5
              (record []) eq_refl) as (Hkeep & _ & Hhalt).
  split; [reflexivity|]. split.
  - destruct (Hkeep eq_refl) as (_ & more & Hmore). exists more. exact Hmore.
  - apply Hhalt. cbn. lia.
Defined.

(** A pair with a separator at [pos]: the key is what precedes it, or a
    synthesized key when nothing does. *)
Lemma handlePair_found (s : KeyValueSplitter) (pair : gostring) (ek nk : Z)
    (st : Store) (v : gostring) :
  let pos := strings.Index pair (Separator s) in
  pos <> -1 ->
  getValue s (skipn (Z.to_nat (pos + len (Separator s))) pair) = Some v ->
  handlePair s pair ek nk st
  = (if pos =? 0 then
       when (ErrIfKeyIsEmpty s)
            (Warningf (str "the key of pair with value ("
                       ++ v ++ str ") is empty")) ;;;
       appendContent EmptyKeySite
         (field (EmptyKeyPrefix s ++ strconv.Itoa ek) v) ;;;
       ret (ek + 1, nk)
     else
       appendContent PlainSite (field (firstn (Z.to_nat pos) pair) v) ;;;
       ret (ek, nk)) st.
Proof.
  intros pos Hpos Hv. unfold handlePair. fold pos.
  destruct (Index_range pair (Separator s)) as [H|[H0 H1]];
    [contradiction|]. fold pos in H0, H1.
  pose proof (len_nonneg (Separator s)).
  replace (pos =? -1) with false by (symmetry; apply Z.eqb_neq; lia).
  rewrite slice_to_Some, slice_from_Some by lia.
  unfold bind at 1 2 3. cbn [lift]. rewrite Hv.
  replace (len (firstn (Z.to_nat pos) pair) =? 0) with (pos =? 0).
  - destruct (pos =? 0); reflexivity.
  - f_equal. unfold len in *. rewrite length_firstn. lia.
Qed.

(** X21: for every configuration and every non-empty source value that
    contains the separator, does not contain the delimiter, and is not a
    pair that [concatQuotePair] re-indexes (so in particular whenever
    quoting is off), [splitKeyValue] returns normally and appends exactly one
    field: its key is the text before the first separator, or
    [EmptyKeyPrefix + "0"] when that text is empty, and its value is the
    dequoted text after that separator. *)
Theorem single_pair_without_delimiter (s : KeyValueSplitter)
    (src : gostring) (fuel : nat) (st : Store) :
  let run := splitKeyValue s (S fuel) src st in
  let pos := strings.Index src (Separator s) in
  src <> [] ->
  pos <> -1 ->
  strings.Index src (Delimiter s) = -1 ->
  opensQuote s src = false ->
  exists v,
    getValue s (skipn (Z.to_nat (pos + len (Separator s))) src) = Some v
    /\ snd run = Ok tt
    /\ Contents (fst run)
       = Contents st
         ++ [field (if pos =? 0 then EmptyKeyPrefix s ++ str "0"
                    else firstn (Z.to_nat pos) src) v].
Proof.
  intros run pos Hne Hpos Hdel Hq.
  destruct (getValue_total s
              (skipn (Z.to_nat (pos + len (Separator s))) src)) as (v & Hv).
  exists v. split; [exact Hv|].
  assert (Hd : Delimiter s <> []).
  { intros E. rewrite E, Index_nil_r in Hdel. discriminate. }
  assert (Hrun : run = (handlePair s src 0 0 ;;; ret tt) st).
  { subst run. unfold splitKeyValue. cbn [splitLoop dIdx content].
    replace (0 <? len src) with true
      by (symmetry; apply Z.ltb_lt, nonempty_len; exact Hne).
    unfold bind at 1.
    rewrite loopBody_plain; cbn [content emptyKeyIndex noSeparatorKeyIndex];
      rewrite ?Hdel; change (-1 =? -1) with true; cbn beta iota;
      try assumption.
    unfold bind.
    destruct (handlePair s src 0 0 st) as [st1 [[ek' nk']| |]];
      reflexivity. }
  rewrite Hrun. unfold bind.
  rewrite (handlePair_found s src 0 0 st v Hpos Hv). fold pos.
  change (strconv.Itoa 0) with (str "0").
  unfold bind, when, Warningf, appendContent, ret.
  destruct (pos =? 0), (ErrIfKeyIsEmpty s); cbn; split; reflexivity.
Qed.

Lemma single_pair_without_delimiter_witness :
  let run := splitKeyValue newKeyValueSplitter 1 (str "a:1") (record []) in
  str "a:1" <> []
  /\ strings.Index (str "a:1") (str ":") <> -1
  /\ strings.Index (str "a:1") [tab] = -1
  /\ snd run = Ok tt
  /\ length (Contents (fst run)) = 1%nat.
Proof.
  intros run.
  assert (H1 : str "a:1" <> []) by discriminate.
  assert (H2 : strings.Index (str "a:1") (Separator newKeyValueSplitter) <> -1)
    by (vm_compute; discriminate).
  assert (H3 : strings.Index (str "a:1") (Delimiter newKeyValueSplitter) = -1)
    by reflexivity.
  destruct (single_pair_without_delimiter newKeyValueSplitter (str "a:1") 0
              (record []) H1 H2 H3 eq_refl) as (v & _ & Hok & Hc).
  split; [exact H1|]. split; [exact H2|]. split; [exact H3|].
  split; [exact Hok|].
  fold run in Hc. rewrite Hc. reflexivity.
Defined.

(** C4: exactly one field is expected from a non-empty value that has a
    separator and no delimiter, but with the double quote as the quote
    [splitKeyValue] appends two fields for [unterminatedQuote], and the byte
    [b] is in neither.  No delimiter is found, so [dIdx] is -1 when
    [concatQuotePair] is called; the search for the next quote then starts
    at [content[0:]] and finds the opening quote itself at 2, the boundary
    becomes [-1 + 2 + 2 = 3], the pair is cut to [a:] and the quote, and the
    loop goes on after the byte at 3 as if it were a delimiter. *)
Theorem unterminated_quote_two_fields (fuel : nat) (st : Store) :
  let s := withQuote [dquote] newKeyValueSplitter in
  let run := splitKeyValue s (S (S fuel)) unterminatedQuote st in
  strings.Index unterminatedQuote (Separator s) = 1
  /\ strings.Index unterminatedQuote (Delimiter s) = -1
  /\ concatQuotePair s unterminatedQuote unterminatedQuote (-1)
     = Some (str "a:" ++ [dquote], 3)
  /\ snd run = Ok tt
  /\ Contents (fst run)
     = Contents st
       ++ [field (str "a") [dquote]; field (str "cdef") (str "gh")].
Proof.
  cbv zeta. repeat (split; [reflexivity|]).
  assert (H : splitKeyValue (withQuote [dquote] newKeyValueSplitter)
                (S (S fuel)) unterminatedQuote st
              = ((appendContent PlainSite (field (str "a") [dquote]) ;;;
                  appendContent PlainSite (field (str "cdef") (str "gh"))) st))
    by (destruct fuel; reflexivity).
  rewrite H. unfold bind. cbn [appendContent fst Contents].
  rewrite <- app_assoc. reflexivity.
Qed.

(** C3, amended: when the source value is a pair [p] followed by the
    delimiter and nothing else (the first occurrence of the delimiter being
    that last one, and [p] not being re-indexed by [concatQuotePair]), the
    call is exactly the handling of [p]: the loop stops as soon as no content
    remains, no empty pair is extracted after the last delimiter, and the
    fields appended are those of [p] alone (one field, or none when [p] has
    no separator and such pairs are discarded). *)
Theorem trailing_delimiter_no_final_pair (s : KeyValueSplitter) (p : gostring)
    (fuel : nat) (st : Store) :
  let run := splitKeyValue s (S fuel) (p ++ Delimiter s) st in
  Delimiter s <> [] ->
  strings.Index (p ++ Delimiter s) (Delimiter s) = len p ->
  opensQuote s p = false ->
  run = (handlePair s p 0 0 ;;; ret tt) st
  /\ snd run = Ok tt
  /\ exists new,
       Contents (fst run) = Contents st ++ new
       /\ length new = pairFields s p.
Proof.
  intros run Hdel Hidx Hq.
  pose proof (nonempty_len _ Hdel) as Hlen.
  pose proof (len_nonneg p) as Hp.
  assert (Hpair : firstn (Z.to_nat (len p)) (p ++ Delimiter s) = p).
  { unfold len. rewrite Nat2Z.id, firstn_app, Nat.sub_diag, firstn_all.
    cbn. apply app_nil_r. }
  assert (Hrest : skipn (Z.to_nat (len p + len (Delimiter s))) (p ++ Delimiter s)
                  = []).
  { apply skipn_all2. rewrite length_app. unfold len. lia. }
  assert (Hrun : run = (handlePair s p 0 0 ;;; ret tt) st).
  { subst run. unfold splitKeyValue. cbn [splitLoop dIdx content].
    replace (0 <? len (p ++ Delimiter s)) with true
      by (symmetry; apply Z.ltb_lt; rewrite len_app; lia).
    unfold bind at 1.
    rewrite loopBody_plain; cbn [content emptyKeyIndex noSeparatorKeyIndex];
      rewrite ?Hidx;
      replace (len p =? -1) with false by (symmetry; apply Z.eqb_neq; lia);
      rewrite ?Hpair; try assumption.
    unfold bind.
    destruct (handlePair s p 0 0 st) as [st1 [[ek' nk']| |]]; try reflexivity.
    cbn [ret]. rewrite Hrest.
    destruct fuel; cbn [splitLoop dIdx content];
      (replace (len p <? len []) with false
         by (symmetry; apply Z.ltb_ge; exact Hp)); reflexivity. }
  split; [exact Hrun|]. rewrite Hrun. unfold bind.
  destruct (handlePair_ok s p 0 0 st) as (st1 & ek' & nk' & Hh & Hcount).
  destruct (handlePair_spec s p 0 0 st) as (added & (HC & _) & _).
  rewrite Hh in *. cbn [fst snd ret] in *.
  split; [reflexivity|]. exists (map snd added). split; [exact HC|].
  rewrite HC, length_app in Hcount. lia.
Qed.

Lemma trailing_delimiter_no_final_pair_witness :
  let run := splitKeyValue newKeyValueSplitter 1 trailingTab (record []) in
  strings.Index trailingTab [tab] = 3
  /\ snd run = Ok tt
  /\ length (Contents (fst run)) = 1%nat.
Proof.
  intros run.
  destruct (trailing_delimiter_no_final_pair newKeyValueSplitter (str "a:1") 0
              (record [])) as (_ & Hok & new & Hc & Hn).
  - discriminate.
  - reflexivity.
  - reflexivity.
  - split; [reflexivity|]. split; [exact Hok|].
    change (length (Contents (fst (splitKeyValue newKeyValueSplitter 1
              (str "a:1" ++ Delimiter newKeyValueSplitter) (record []))))
            = 1%nat).
    rewrite Hc. exact Hn.
Defined.

(** C3 as stated fails: with the default configuration (pairs without
    separator are kept) the value ["a:1\t"] yields the field of ["a:1"] only;
    no field with an empty value is appended for what follows the last
    delimiter. *)
Lemma trailing_delimiter_counterexample :
  let s := newKeyValueSplitter in
  let run := splitKeyValue s 5 trailingTab (record []) in
  DiscardWhenSeparatorNotFound s = false
  /\ snd run = Ok tt
  /\ Contents (fst run) = [field (str "a") (str "1")]
  /\ ~ In (field (str "no_separator_key_0") []) (Contents (fst run)).
Proof.
  cbv zeta. split; [reflexivity|]. split; [reflexivity|].
  split; [reflexivity|]. vm_compute. intros [H|[]]. discriminate H.
Qed.

(** ** The claims about [concatQuotePair] *)

Lemma slice_from_inv (s tail : gostring) (lo : Z) :
  slice_from s lo = Some tail -> 0 <= lo <= len s.
Proof.
  unfold slice_from, slice.
  destruct ((0 <=? lo) && (lo <=? len s) && (len s <=? len s)) eqn:E;
    [|discriminate].
  rewrite !andb_true_iff, !Z.leb_le in E. lia.
Qed.

(** The re-indexing of [concatQuotePair] when no quote follows the boundary:
    the new boundary is [dIdx + len(Separator) + len(Quote) - 1], and the
    pair is the content up to it when it is within the content; the slice
    panics when it is not. *)
Lemma concatQuotePair_reindex (s : KeyValueSplitter) (pair content tail : gostring)
    (dIdx : Z) :
  let k := len (Separator s) + len (Quote s) in
  QuoteFlag s = true ->
  0 < len (Quote s) ->
  strings.HasSuffix pair (Quote s) = false ->
  0 < strings.Index pair (Separator s ++ Quote s)
  \/ strings.HasPrefix pair (Quote s) = true ->
  slice_from content (dIdx + 1) = Some tail ->
  strings.Index tail (Quote s) = -1 ->
  2 <= k ->
  concatQuotePair s pair content dIdx
  = option_map (fun pair => (pair, dIdx + k - 1))
               (slice_to content (dIdx + k - 1)).
Proof.
  intros k Hflag Hquote Hsuffix Hopen Htail Hnone Hk.
  unfold concatQuotePair. rewrite Hflag, Hsuffix, Htail, Hnone.
  replace (0 <? len (Quote s)) with true by (symmetry; apply Z.ltb_lt; lia).
  cbn [andb negb].
  replace ((0 <? strings.Index pair (Separator s ++ Quote s))
           || strings.HasPrefix pair (Quote s)) with true.
  2: { symmetry. apply orb_true_iff.
       destruct Hopen as [H|H]; [left; apply Z.ltb_lt; exact H | right; exact H]. }
  rewrite len_app. fold k.
  replace (0 <? -1 + k) with true by (symmetry; apply Z.ltb_lt; lia).
  replace (dIdx + (-1 + k)) with (dIdx + k - 1) by lia.
  reflexivity.
Qed.

(** X22: with quoting on, for a pair that seems to open a quote
    (separator+quote after its first byte, or the quote at its start), does
    not end with the quote, and has no quote anywhere after the delimiter
    boundary, [concatQuotePair] still moves the boundary: when
    [len(Separator) + len(Quote) >= 2] and the new boundary
    [dIdx + len(Separator) + len(Quote) - 1] does not exceed the length of
    the content, it returns that boundary together with the content up to
    it. *)
Theorem concatQuotePair_no_closing_quote (s : KeyValueSplitter)
    (pair content tail : gostring) (dIdx : Z) :
  let k := len (Separator s) + len (Quote s) in
  QuoteFlag s = true ->
  0 < len (Quote s) ->
  strings.HasSuffix pair (Quote s) = false ->
  0 < strings.Index pair (Separator s ++ Quote s)
  \/ strings.HasPrefix pair (Quote s) = true ->
  slice_from content (dIdx + 1) = Some tail ->
  strings.Index tail (Quote s) = -1 ->
  2 <= k ->
  dIdx + k - 1 <= len content ->
  concatQuotePair s pair content dIdx
  = Some (firstn (Z.to_nat (dIdx + k - 1)) content, dIdx + k - 1).
Proof.
  intros k Hflag Hquote Hsuffix Hopen Htail Hnone Hk Hfit.
  rewrite (concatQuotePair_reindex s pair content tail dIdx)
    by assumption.
  fold k. apply slice_from_inv in Htail.
  rewrite slice_to_Some by lia. reflexivity.
Qed.

Lemma concatQuotePair_no_closing_quote_witness :
  let s := withQuote [dquote] newKeyValueSplitter in
  strings.Index openQuoteContent (Delimiter s) = 2
  /\ concatQuotePair s openQuotePair openQuoteContent 2
     = Some (openQuoteContent, 3).
Proof.
  intros s. split; [reflexivity|].
  apply (concatQuotePair_no_closing_quote s openQuotePair openQuoteContent [] 2).
  - reflexivity.
  - reflexivity.
  - reflexivity.
  - right. reflexivity.
  - reflexivity.
  - reflexivity.
  - vm_compute. discriminate.
  - vm_compute. discriminate.
Defined.

(** C9: the pair is expected to be re-extracted up to the moved boundary,
    but when that boundary is beyond the end of the content the call
    panics.  With the separator [::] and the double quote as the quote, the
    pair of [openQuoteContent] opens a quote, does not end with it, and no
    quote follows the boundary 2: the not-found index -1 becomes
    [-1 + 3 = 2 > 0], the boundary moves from 2 to 4, past the 3 bytes of
    the content, and the unchecked slice [content[:4]] is out of range, in
    [concatQuotePair] and so in [splitKeyValue], which leaves the record as
    it was. *)
Theorem open_quote_slice_out_of_range (fuel : nat) (st : Store) :
  let s := withSeparator (str "::") (withQuote [dquote] newKeyValueSplitter) in
  strings.Index openQuoteContent (Delimiter s) = 2
  /\ slice_to openQuoteContent 2 = Some openQuotePair
  /\ quoting s = true
  /\ strings.HasPrefix openQuotePair (Quote s) = true
  /\ strings.HasSuffix openQuotePair (Quote s) = false
  /\ (exists tail, slice_from openQuoteContent (2 + 1) = Some tail
                   /\ strings.Index tail (Quote s) = -1)
  /\ len (Separator s) + len (Quote s) = 3
  /\ len openQuoteContent = 3
  /\ concatQuotePair s openQuotePair openQuoteContent 2 = None
  /\ splitKeyValue s (S fuel) openQuoteContent st = (st, Panic).
Proof.
  cbv zeta. repeat (split; [reflexivity|]).
  split; [exists []; split; reflexivity|].
  repeat (split; [reflexivity|]). reflexivity.
Qed.

(** ** Scenarios *)

(** C1: the two fields [("a","1")] and [("b","2")] are expected from
    ["a:1\tb:2"] with the default configuration, but [splitKeyValue] returns
    after the first pair: it appends the field [("a","1")] alone.  After the
    first iteration [dIdx] is still 3, the index of the delimiter in the old
    content, and the remaining content ["b:2"] has length 3, so the loop test
    [dIdx < len(content)] fails and ["b:2"] is never split. *)
Theorem scenario1_only_first_pair (fuel : nat) (st : Store) :
  let run := splitKeyValue newKeyValueSplitter (S fuel) scenario1 st in
  snd run = Ok tt
  /\ Contents (fst run) = Contents st ++ [field (str "a") (str "1")].
Proof.
  destruct fuel; split; reflexivity.
Qed.

(** C5: with the double quote as the quote and the default tab and colon,
    [splitKeyValue] on [c:] followed by the quoted [x], tab, [y] appends the
    single field of key ["c"] and value ["x\ty"]: the tab inside the quotes
    does not end the pair and the quotes are removed from the value. *)
Theorem scenario4_quoted_delimiter (fuel : nat) (st : Store) :
  let s := withQuote [dquote] newKeyValueSplitter in
  let run := splitKeyValue s (S fuel) scenario4 st in
  snd run = Ok tt
  /\ Contents (fst run)
     = Contents st ++ [field (str "c") (str "x" ++ [tab] ++ str "y")].
Proof.
  destruct fuel; split; reflexivity.
Qed.

(** ** Termination *)

(** One iteration on that value: the pair is re-indexed up to the closing
    quote at 8, one byte before the end; [8 + 2 <= 9] fails, so the content
    is left as it is, and [dIdx] is 8. *)
Lemma quotedThenZ_iteration (d : Z) (st : Store) :
  loopBody twoTabs (mkLocals quotedThenZ d 0 0) st
  = (fst (appendContent PlainSite
            (field (str "a") (str "x" ++ [tab; tab] ++ str "y")) st),
     Ok (Continue (mkLocals quotedThenZ 8 0 0))).
Proof. reflexivity. Qed.

Lemma quotedThenZ_loops (fuel : nat) :
  forall (d : Z) (st : Store),
    d < 9 ->
    snd (splitLoop twoTabs fuel (mkLocals quotedThenZ d 0 0) st) = OutOfFuel
    /\ length (Contents (fst (splitLoop twoTabs fuel
                                (mkLocals quotedThenZ d 0 0) st)))
       = (length (Contents st) + fuel)%nat.
Proof.
  induction fuel as [|fuel IH]; intros d st Hd; cbn [splitLoop dIdx content];
    (replace (d <? len quotedThenZ) with true
       by (symmetry; apply Z.ltb_lt; exact Hd)).
  - split; [reflexivity|]. cbn. lia.
  - unfold bind. rewrite quotedThenZ_iteration.
    destruct (IH 8 (fst (appendContent PlainSite
                (field (str "a") (str "x" ++ [tab; tab] ++ str "y")) st)))
      as [H1 H2]; [lia|].
    split; [exact H1|]. rewrite H2. cbn [appendContent fst Contents].
    rewrite length_app. cbn. lia.
Qed.

(** C2: the loop is expected to end for every non-empty delimiter, but with
    a delimiter of two tabs and the double quote as the quote, the loop of
    [splitKeyValue] never ends on the value [quotedThenZ]: whatever
    the fuel, the run is still going when the fuel is spent, and it has
    appended one field per iteration.  The re-indexed boundary 8 is less than
    the length 9 of the content, but [dIdx + len(Delimiter) <= len(content)]
    fails, so the content is never shortened and every iteration is the
    same. *)
Theorem two_byte_delimiter_never_ends (fuel : nat) (st : Store) :
  let run := splitKeyValue twoTabs fuel quotedThenZ st in
  snd run = OutOfFuel
  /\ length (Contents (fst run)) = (length (Contents st) + fuel)%nat.
Proof.
  apply quotedThenZ_loops. lia.
Qed.

(** With a delimiter of one byte the loop always ends (normally or by a
    panic), quoting or not. *)

Lemma concatQuotePair_boundary (s : KeyValueSplitter) (pair content : gostring)
    (d : Z) (r : gostring * Z) :
  concatQuotePair s pair content d = Some r -> d <= snd r.
Proof.
  unfold concatQuotePair.
  destruct (QuoteFlag s && (0 <? len (Quote s))
            && negb (strings.HasSuffix pair (Quote s))).
  2: { intros H. injection H as <-. cbn. lia. }
  destruct (slice_from content (d + 1)); [|discriminate].
  destruct ((0 <? strings.Index pair (Separator s ++ Quote s))
            || strings.HasPrefix pair (Quote s)).
  2: { intros H. injection H as <-. cbn. lia. }
  destruct (0 <? _) eqn:E.
  2: { intros H. injection H as <-. cbn. lia. }
  apply Z.ltb_lt in E.
  destruct (slice_to content _); cbn [option_map]; [|discriminate].
  intros H'. injection H' as <-. cbn [snd]. lia.
Qed.

(** After an iteration that goes on, [dIdx] is not negative, and the content
    has lost its first [dIdx + len(Delimiter)] bytes when it has that many;
    otherwise it is unchanged. *)
Lemma loopBody_continue (s : KeyValueSplitter) (l l' : Locals) (st : Store) :
  snd (loopBody s l st) = Ok (Continue l') ->
  0 <= dIdx l'
  /\ (dIdx l' + len (Delimiter s) <= len (content l)
      /\ content l'
         = skipn (Z.to_nat (dIdx l' + len (Delimiter s))) (content l)
      \/ len (content l) < dIdx l' + len (Delimiter s)
         /\ content l' = content l).
Proof.
  unfold loopBody, bind.
  set (d := strings.Index (content l) (Delimiter s)).
  assert (Hd : -1 <= d)
    by (destruct (Index_range (content l) (Delimiter s)) as [H|H];
        fold d in H; lia).
  destruct ((if d =? -1 then ret (content l)
             else lift (slice_to (content l) d)) st) as [st0 [pair| |]];
    cbn [snd]; try discriminate.
  unfold lift at 1.
  destruct (concatQuotePair s pair (content l) d) as [r|] eqn:Hc;
    cbn [snd]; try discriminate.
  apply concatQuotePair_boundary in Hc.
  destruct (handlePair s (fst r) (emptyKeyIndex l) (noSeparatorKeyIndex l) st0)
    as [st1 [[ek' nk']| |]]; cbn [snd]; try discriminate.
  destruct (snd r =? -1) eqn:E1; [discriminate|]. apply Z.eqb_neq in E1.
  destruct (snd r + len (Delimiter s) <=? len (content l)) eqn:E2.
  - apply Z.leb_le in E2. pose proof (len_nonneg (Delimiter s)).
    unfold lift. rewrite slice_from_Some by lia. cbn.
    intros Hl. injection Hl as <-. cbn [dIdx content].
    split; [lia|]. left. split; [exact E2 | reflexivity].
  - apply Z.leb_gt in E2. cbn.
    intros Hl. injection Hl as <-. cbn [dIdx content].
    split; [lia|]. right. split; [exact E2 | reflexivity].
Qed.

Lemma loopBody_has_fuel (s : KeyValueSplitter) (l : Locals) (st : Store) :
  snd (loopBody s l st) <> OutOfFuel.
Proof.
  unfold loopBody, bind, lift, ret.
  split_cases; cbn [snd]; try discriminate.
  all: match goal with
       | |- context [handlePair ?s ?p ?e ?n ?st] =>
           destruct (handlePair_ok s p e n st) as (st1 & ek' & nk' & Hh & _);
           rewrite Hh
       end.
  all: split_cases; cbn [snd]; discriminate.
Qed.

Lemma splitLoop_halts_one_byte_delimiter (s : KeyValueSplitter) :
  len (Delimiter s) = 1 ->
  forall (fuel : nat) (l : Locals) (st : Store),
    0 <= dIdx l ->
    (length (content l) < fuel)%nat ->
    snd (splitLoop s fuel l st) <> OutOfFuel.
Proof.
  intros Hdel.
  induction fuel as [|fuel IH]; intros l st Hd Hfuel; [lia|].
  cbn [splitLoop].
  destruct (dIdx l <? len (content l)) eqn:Hguard; [|discriminate].
  apply Z.ltb_lt in Hguard. unfold bind.
  pose proof (loopBody_has_fuel s l st) as Hfuel'.
  pose proof (fun l' => loopBody_continue s l l' st) as Hcont.
  destruct (loopBody s l st) as [st1 [[l1|]| |]]; cbn [snd] in *;
    try discriminate; try contradiction.
  destruct (Hcont l1 eq_refl) as [Hd1 [[Hfit Hc]|[Hfit Hc]]].
  - apply IH; [exact Hd1|]. rewrite Hc, length_skipn. unfold len in *. lia.
  - destruct fuel as [|fuel']; cbn [splitLoop];
      (replace (dIdx l1 <? len (content l1)) with false
         by (symmetry; apply Z.ltb_ge; rewrite Hc; lia)); discriminate.
Qed.

Lemma splitKeyValue_halts_one_byte_delimiter (s : KeyValueSplitter)
    (content : gostring) (st : Store) :
  len (Delimiter s) = 1 ->
  snd (splitKeyValue s (S (length content)) content st) <> OutOfFuel.
Proof.
  intros Hdel. unfold splitKeyValue.
  apply splitLoop_halts_one_byte_delimiter; cbn; [exact Hdel|lia|lia].
Qed.

Lemma splitKeyValue_halts_quoting_off (s : KeyValueSplitter)
    (content : gostring) (st : Store) :
  quoting s = false ->
  Delimiter s <> [] ->
  snd (splitKeyValue s (length content) content st) = Ok tt.
Proof.
  intros Hq Hdel. unfold splitKeyValue.
  apply splitLoop_halts_quoting_off; cbn; try assumption; lia.
Qed.

(** The loop does nothing once no content remains; in particular an empty
    source value yields no field. *)
Lemma splitLoop_no_content (s : KeyValueSplitter) (fuel : nat) (d ek nk : Z)
    (st : Store) :
  0 <= d -> splitLoop s fuel (mkLocals [] d ek nk) st = (st, Ok tt).
Proof.
  intros Hd. destruct fuel; cbn [splitLoop dIdx];
    (replace (d <? len _) with false by (symmetry; apply Z.ltb_ge; exact Hd));
    reflexivity.
Qed.

Lemma splitKeyValue_empty (s : KeyValueSplitter) (fuel : nat) (st : Store) :
  splitKeyValue s fuel [] st = (st, Ok tt).
Proof. apply splitLoop_no_content. lia. Qed.

(** ** The counters stay within the number of appended fields *)

Lemma Reaches_counters (s : KeyValueSplitter) (l l' : Locals) (st st' : Store) :
  Reaches s l st l' st' ->
  exists added,
    Grows st st' added
    /\ emptyKeyIndex l' = emptyKeyIndex l + countSite EmptyKeySite added
    /\ noSeparatorKeyIndex l'
       = noSeparatorKeyIndex l + countSite NoSeparatorSite added.
Proof.
  induction 1 as [l st|l l1 l2 st st1 st2 Hguard Hbody _ IH].
  - exists []. split; [apply Grows_refl|]. unfold countSite. cbn. lia.
  - destruct IH as (a2 & HG2 & He2 & Hn2).
    destruct (loopBody_spec s l st) as (a1 & HG1 & _ & HC1).
    rewrite Hbody in HG1, HC1. cbn [fst snd] in HG1, HC1.
    destruct (HC1 l1 eq_refl) as [He1 Hn1].
    exists (a1 ++ a2). split; [eapply Grows_trans; eassumption|].
    rewrite !countSite_app. lia.
Qed.

Lemma countSites_le (added : list (Site * Log_Content)) :
  countSite EmptyKeySite added + countSite NoSeparatorSite added
  <= Z.of_nat (length added).
Proof.
  induction added as [|[site c] r IH].
  - unfold countSite. cbn. lia.
  - rewrite !countSite_cons. cbn [length]. destruct site; cbn [Site_eqb]; lia.
Qed.

(** In every state the loop of [splitKeyValue] reaches, each counter is at
    least 0 and their sum is at most the number of fields the call has
    appended to the record. *)
Lemma counters_bounded (s : KeyValueSplitter) (content : gostring)
    (l : Locals) (st st' : Store) :
  Reaches s (mkLocals content 0 0 0) st l st' ->
  0 <= emptyKeyIndex l
  /\ 0 <= noSeparatorKeyIndex l
  /\ Z.of_nat (length (Contents st)) + emptyKeyIndex l + noSeparatorKeyIndex l
     <= Z.of_nat (length (Contents st')).
Proof.
  intros H. apply Reaches_counters in H.
  destruct H as (added & (HC & _) & He & Hn).
  cbn [emptyKeyIndex noSeparatorKeyIndex] in He, Hn.
  pose proof (countSite_nonneg EmptyKeySite added).
  pose proof (countSite_nonneg NoSeparatorSite added).
  pose proof (countSites_le added).
  rewrite HC, length_app, length_map. lia.
Qed.

(** ** The loop stops when no content remains *)

Lemma Reaches_dIdx (s : KeyValueSplitter) (l l' : Locals) (st st' : Store) :
  Reaches s l st l' st' -> 0 <= dIdx l -> 0 <= dIdx l'.
Proof.
  induction 1 as [l st|l l1 l2 st st1 st2 Hguard Hbody _ IH]; intros Hd.
  - exact Hd.
  - apply IH. apply (loopBody_continue s l l1 st). rewrite Hbody. reflexivity.
Qed.

(** The function [splitLoop] goes through the states of [Reaches]. *)
Lemma Reaches_splitLoop (s : KeyValueSplitter) (l l' : Locals) (st st' : Store) :
  Reaches s l st l' st' ->
  forall fuel, exists fuel',
    splitLoop s fuel' l st = splitLoop s fuel l' st'.
Proof.
  induction 1 as [l st|l l1 l2 st st1 st2 Hguard Hbody _ IH]; intros fuel.
  - exists fuel. reflexivity.
  - destruct (IH fuel) as (fuel' & Hf). exists (S fuel').
    cbn [splitLoop].
    replace (dIdx l <? len (content l)) with true
      by (symmetry; apply Z.ltb_lt; exact Hguard).
    unfold bind. rewrite Hbody. exact Hf.
Qed.

(** Whenever the loop of [splitKeyValue] reaches a state with no content
    left, as it does after a delimiter that ends the value, the call returns
    with the record as it is then: no pair is extracted from the empty
    remainder. *)
Lemma no_pair_once_content_is_empty (s : KeyValueSplitter) (src : gostring)
    (l : Locals) (st st' : Store) :
  Reaches s (mkLocals src 0 0 0) st l st' ->
  content l = [] ->
  exists fuel, splitKeyValue s fuel src st = (st', Ok tt).
Proof.
  intros HR Hc.
  pose proof (Reaches_dIdx s _ _ _ _ HR) as Hd. cbn [dIdx] in Hd.
  destruct (Reaches_splitLoop s _ _ _ _ HR 0) as (fuel & Hf).
  exists fuel. unfold splitKeyValue. rewrite Hf.
  destruct l as [c d ek nk]. cbn [content dIdx] in *. subst c.
  apply splitLoop_no_content. apply Hd. lia.
Qed.

(** ** A record with its source field removed *)

(** With [KeepSource] off, the source field [msg] of value ["a:1"] at index 0
    of a record of two fields is removed and [("a","1")] is appended. *)
Example processLog_removes_source :
  let s := mkSplitter (str "msg") [tab] (str ":") false
             defaultEmptyKeyPrefix defaultNoSeparatorKeyPrefix false []
             false true true true in
  let st := record [field (str "msg") (str "a:1"); field (str "k") (str "v")] in
  processLog s 3 st
  = ({| Contents := [field (str "k") (str "v"); field (str "a") (str "1")];
        Warnings := [];
        Appended := [(PlainSite, field (str "a") (str "1"))] |}, Ok tt).
Proof. reflexivity. Qed.

(** * Further properties of the processor *)

(** ** Initialization *)

Lemma orDefault_nonempty (v d : gostring) : d <> [] -> orDefault v d <> [].
Proof.
  intros Hd. unfold orDefault. destruct (len v =? 0) eqn:E; [exact Hd|].
  intros H. rewrite H in E. discriminate.
Qed.

Lemma orDefault_keeps (v d : gostring) : v <> [] -> orDefault v d = v.
Proof.
  intros Hv. unfold orDefault. destruct (len v =? 0) eqn:E; [|reflexivity].
  apply Z.eqb_eq, len_nil_iff in E. contradiction.
Qed.

(** X1: [Init] fills in exactly the four defaults.  A delimiter, separator,
    empty-key prefix or no-separator prefix that is empty becomes the tab,
    the colon, [empty_key_] and [no_separator_key_]; one that is not empty
    is kept as it was; the eight other settings are not changed.  So after
    [Init] the four strings are non-empty, and initializing twice is the
    same as initializing once. *)
Theorem Init_defaults (s : KeyValueSplitter) :
  ((Delimiter s = [] -> Delimiter (Init s) = [tab])
   /\ (Delimiter s <> [] -> Delimiter (Init s) = Delimiter s))
  /\ ((Separator s = [] -> Separator (Init s) = str ":")
      /\ (Separator s <> [] -> Separator (Init s) = Separator s))
  /\ ((EmptyKeyPrefix s = [] -> EmptyKeyPrefix (Init s) = str "empty_key_")
      /\ (EmptyKeyPrefix s <> [] ->
          EmptyKeyPrefix (Init s) = EmptyKeyPrefix s))
  /\ ((NoSeparatorKeyPrefix s = [] ->
       NoSeparatorKeyPrefix (Init s) = str "no_separator_key_")
      /\ (NoSeparatorKeyPrefix s <> [] ->
          NoSeparatorKeyPrefix (Init s) = NoSeparatorKeyPrefix s))
  /\ (SourceKey (Init s) = SourceKey s
      /\ KeepSource (Init s) = KeepSource s
      /\ QuoteFlag (Init s) = QuoteFlag s
      /\ Quote (Init s) = Quote s
      /\ DiscardWhenSeparatorNotFound (Init s) = DiscardWhenSeparatorNotFound s
      /\ ErrIfSourceKeyNotFound (Init s) = ErrIfSourceKeyNotFound s
      /\ ErrIfSeparatorNotFound (Init s) = ErrIfSeparatorNotFound s
      /\ ErrIfKeyIsEmpty (Init s) = ErrIfKeyIsEmpty s)
  /\ (Delimiter (Init s) <> [] /\ Separator (Init s) <> []
      /\ EmptyKeyPrefix (Init s) <> [] /\ NoSeparatorKeyPrefix (Init s) <> [])
  /\ Init (Init s) = Init s.
Proof.
  assert (Hempty : forall v d, v = [] -> orDefault v d = d)
    by (intros v d ->; reflexivity).
  split; [|split; [|split; [|split; [|split; [|split]]]]].
  - split; [apply Hempty | apply orDefault_keeps].
  - split; [apply Hempty | apply orDefault_keeps].
  - split; [apply Hempty | apply orDefault_keeps].
  - split; [apply Hempty | apply orDefault_keeps].
  - repeat split; reflexivity.
  - cbn [Init Delimiter Separator EmptyKeyPrefix NoSeparatorKeyPrefix].
    repeat split; apply orDefault_nonempty; discriminate.
  - unfold Init at 1.
    cbn [Init SourceKey Delimiter Separator KeepSource EmptyKeyPrefix
         NoSeparatorKeyPrefix QuoteFlag Quote DiscardWhenSeparatorNotFound
         ErrIfSourceKeyNotFound ErrIfSeparatorNotFound ErrIfKeyIsEmpty].
    rewrite (orDefault_keeps (orDefault (Delimiter s) defaultDelimiter)),
      (orDefault_keeps (orDefault (Separator s) defaultSeparator)),
      (orDefault_keeps (orDefault (EmptyKeyPrefix s) defaultEmptyKeyPrefix)),
      (orDefault_keeps
         (orDefault (NoSeparatorKeyPrefix s) defaultNoSeparatorKeyPrefix))
      by (apply orDefault_nonempty; discriminate).
    reflexivity.
Qed.

Lemma Init_defaults_witness :
  let s := withDelimiter (str "|") (withSeparator [] newKeyValueSplitter) in
  Delimiter s <> [] /\ Separator s = []
  /\ Delimiter (Init s) = str "|"
  /\ Separator (Init s) = str ":".
Proof.
  intros s.
  assert (Hd : Delimiter s <> []) by discriminate.
  assert (Hs : Separator s = []) by reflexivity.
  destruct (Init_defaults s) as ((_ & Hkeep) & (Hdef & _) & _).
  split; [exact Hd|]. split; [exact Hs|].
  split; [exact (Hkeep Hd) | exact (Hdef Hs)].
Defined.

(** ** Dequoting *)

Lemma HasSuffix_app (p q : gostring) : strings.HasSuffix (p ++ q) q = true.
Proof.
  unfold strings.HasSuffix. apply andb_true_iff. split.
  - apply Z.leb_le. rewrite len_app. pose proof (len_nonneg p). lia.
  - rewrite length_app.
    replace (length p + length q - length q)%nat with (length p) by lia.
    rewrite skipn_app, skipn_all, Nat.sub_diag. cbn. apply bytes_eqb_refl.
Qed.

Lemma HasPrefix_split (v q : gostring) :
  strings.HasPrefix v q = true -> v = q ++ skipn (length q) v.
Proof.
  unfold strings.HasPrefix. intros H. apply andb_true_iff in H.
  destruct H as [_ H]. apply bytes_eqb_eq in H.
  pose proof (firstn_skipn (length q) v) as F.
  rewrite H in F. symmetry. exact F.
Qed.

Lemma HasSuffix_split (v q : gostring) :
  strings.HasSuffix v q = true ->
  v = firstn (length v - length q) v ++ q.
Proof.
  unfold strings.HasSuffix. intros H. apply andb_true_iff in H.
  destruct H as [_ H]. apply bytes_eqb_eq in H.
  pose proof (firstn_skipn (length v - length q) v) as F.
  rewrite H in F. symmetry. exact F.
Qed.

(** X2: with quoting in force, [getValue] undoes the quoting of a value: a
    value put between two quote strings comes back as it was. *)
Theorem getValue_quoted (s : KeyValueSplitter) (v : gostring) :
  quoting s = true ->
  getValue s (Quote s ++ v ++ Quote s) = Some v.
Proof.
  unfold quoting. intros Hq. unfold getValue. rewrite Hq.
  rewrite HasPrefix_app.
  rewrite (app_assoc (Quote s) v (Quote s)), HasSuffix_app.
  rewrite <- app_assoc.
  replace (2 * len (Quote s) <=? len (Quote s ++ v ++ Quote s)) with true
    by (symmetry; apply Z.leb_le; rewrite !len_app;
        pose proof (len_nonneg v); lia).
  cbn [andb]. pose proof (len_nonneg (Quote s)). pose proof (len_nonneg v).
  rewrite slice_Some by (rewrite ?len_app; lia).
  f_equal. rewrite !len_app.
  replace (len (Quote s) + (len v + len (Quote s)) - len (Quote s) - len (Quote s))
    with (len v) by lia.
  unfold len. rewrite !Nat2Z.id.
  rewrite skipn_app, skipn_all, Nat.sub_diag. cbn [skipn app].
  rewrite firstn_app, firstn_all, Nat.sub_diag. cbn. apply app_nil_r.
Qed.

Lemma getValue_quoted_witness :
  getValue (withQuote [dquote] newKeyValueSplitter)
           ([dquote] ++ str "x y" ++ [dquote])
  = Some (str "x y").
Proof.
  apply (getValue_quoted (withQuote [dquote] newKeyValueSplitter) (str "x y")).
  reflexivity.
Defined.

(** X3: [getValue] never panics, and it returns either the value unchanged
    or, with quoting in force, the value without the quote string at its
    start and the one at its end; it removes nothing else. *)
Theorem getValue_strips_only_quotes (s : KeyValueSplitter) (value : gostring) :
  exists v,
    getValue s value = Some v
    /\ (v = value
        \/ quoting s = true /\ value = Quote s ++ v ++ Quote s).
Proof.
  unfold getValue, quoting.
  destruct (QuoteFlag s && (0 <? len (Quote s))); [|eauto].
  destruct ((2 * len (Quote s) <=? len value)
            && strings.HasPrefix value (Quote s)
            && strings.HasSuffix value (Quote s)) eqn:E; [|eauto].
  rewrite !andb_true_iff in E. destruct E as [[E Hp] Hs].
  apply Z.leb_le in E. pose proof (len_nonneg (Quote s)) as Hq.
  rewrite slice_Some by lia.
  eexists. split; [reflexivity|]. right. split; [reflexivity|].
  unfold len in *.
  replace (Z.to_nat (Z.of_nat (length value) - Z.of_nat (length (Quote s))
                     - Z.of_nat (length (Quote s))))
    with (length value - length (Quote s) - length (Quote s))%nat by lia.
  rewrite Nat2Z.id.
  rewrite (HasPrefix_split _ _ Hp) at 1. f_equal.
  pose proof (HasSuffix_split _ _ Hs) as Hsplit.
  assert (Hq' : skipn (length value - length (Quote s)) value = Quote s).
  { unfold strings.HasSuffix in Hs. apply andb_true_iff in Hs.
    apply bytes_eqb_eq. tauto. }
  rewrite <- (firstn_skipn (length value - length (Quote s) - length (Quote s))
                (skipn (length (Quote s)) value)) at 1.
  f_equal. rewrite skipn_skipn.
  replace (length value - length (Quote s) - length (Quote s) + length (Quote s))%nat
    with (length value - length (Quote s))%nat by lia.
  exact Hq'.
Qed.

(** ** The boundary after [concatQuotePair] *)

Lemma slice_to_inv (s p : gostring) (hi : Z) :
  slice_to s hi = Some p ->
  0 <= hi <= len s /\ p = firstn (Z.to_nat hi) s.
Proof.
  unfold slice_to, slice.
  destruct ((0 <=? 0) && (0 <=? hi) && (hi <=? len s)) eqn:E; [|discriminate].
  rewrite !andb_true_iff, !Z.leb_le in E.
  intros H. injection H as <-. rewrite Z.sub_0_r. cbn [Z.to_nat skipn].
  split; [lia | reflexivity].
Qed.

(** X4: when [concatQuotePair] returns, it has either left the pair and the
    boundary as they were, or, for a pair that opens a quote, moved the
    boundary strictly forward to a position within the content and taken as
    pair the content up to that position.  It never moves the boundary
    backwards and never returns a pair that is not a prefix of the content
    unless it is the pair it was given. *)
Theorem concatQuotePair_outcome (s : KeyValueSplitter)
    (pair content : gostring) (d : Z) (r : gostring * Z) :
  concatQuotePair s pair content d = Some r ->
  r = (pair, d)
  \/ opensQuote s pair = true
     /\ d < snd r <= len content
     /\ 0 <= snd r
     /\ fst r = firstn (Z.to_nat (snd r)) content.
Proof.
  unfold concatQuotePair, opensQuote, quoting.
  destruct (QuoteFlag s && (0 <? len (Quote s))
            && negb (strings.HasSuffix pair (Quote s))) eqn:E1.
  2: { intros H. injection H as <-. left. reflexivity. }
  destruct (slice_from content (d + 1)); [|discriminate].
  destruct ((0 <? strings.Index pair (Separator s ++ Quote s))
            || strings.HasPrefix pair (Quote s)) eqn:E2.
  2: { intros H. injection H as <-. left. reflexivity. }
  match goal with
  | |- context [if ?b then _ else _] => destruct b eqn:E3
  end.
  2: { intros H. injection H as <-. left. reflexivity. }
  apply Z.ltb_lt in E3.
  destruct (slice_to content _) as [p|] eqn:E4; cbn [option_map];
    [|discriminate].
  apply slice_to_inv in E4. destruct E4 as [Hr Hp].
  intros H. injection H as <-. right. cbn [fst snd andb].
  repeat split; try lia. exact Hp.
Qed.

Lemma concatQuotePair_outcome_witness :
  let s := withQuote [dquote] newKeyValueSplitter in
  let pair := str "c:" ++ [dquote] ++ str "x" in
  concatQuotePair s pair scenario4 4 = Some (scenario4, 7)
  /\ ((scenario4, 7) = (pair, 4)
      \/ opensQuote s pair = true
         /\ 4 < 7 <= len scenario4
         /\ 0 <= 7
         /\ scenario4 = firstn (Z.to_nat 7) scenario4).
Proof.
  intros s pair. split; [reflexivity|].
  apply (concatQuotePair_outcome s pair scenario4 4 (scenario4, 7)).
  reflexivity.
Defined.

(** ** One pair, in full *)

(** A pair without separator. *)
Lemma handlePair_not_found (s : KeyValueSplitter) (pair : gostring) (ek nk : Z)
    (st : Store) (v : gostring) :
  strings.Index pair (Separator s) = -1 ->
  getValue s pair = Some v ->
  handlePair s pair ek nk st
  = (when (ErrIfSeparatorNotFound s)
          (Warningf (str "can not find separator in " ++ pair)) ;;;
     if negb (DiscardWhenSeparatorNotFound s) then
       appendContent NoSeparatorSite
         (field (NoSeparatorKeyPrefix s ++ strconv.Itoa nk) v) ;;;
       ret (ek, nk + 1)
     else ret (ek, nk)) st.
Proof.
  intros Hpos Hv. unfold handlePair. rewrite Hpos.
  change (-1 =? -1) with true. cbn beta iota.
  unfold bind. destruct (when _ _ st) as [st1 [[]| |]]; try reflexivity.
  rewrite Hv. destruct (DiscardWhenSeparatorNotFound s); reflexivity.
Qed.

Lemma Itoa_nonempty (i : Z) : strconv.Itoa i <> [].
Proof.
  unfold strconv.Itoa, str.
  assert (H : forall d, NilZero.string_of_uint d <> ""%string)
    by (intros d; destruct d; discriminate).
  destruct i as [|p|p]; cbn [Z.to_int NilZero.string_of_int].
  - discriminate.
  - specialize (H (Pos.to_uint p)).
    destruct (NilZero.string_of_uint (Pos.to_uint p));
      [contradiction | discriminate].
  - discriminate.
Qed.

(** X5: the separator / empty-key logic applied to one pair never panics.
    It appends one field, or none when the pair has no separator and such
    pairs are discarded; neither counter goes down, and together they go up
    by at most the number of fields appended. *)
Theorem handlePair_bounds (s : KeyValueSplitter) (pair : gostring) (ek nk : Z)
    (st : Store) :
  exists st' ek' nk',
    handlePair s pair ek nk st = (st', Ok (ek', nk'))
    /\ length (Contents st') = (length (Contents st) + pairFields s pair)%nat
    /\ firstn (length (Contents st)) (Contents st') = Contents st
    /\ ek <= ek' /\ nk <= nk'
    /\ ek' + nk' <= ek + nk + Z.of_nat (pairFields s pair).
Proof.
  destruct (handlePair_ok s pair ek nk st) as (st' & ek' & nk' & Hh & Hlen).
  destruct (handlePair_spec s pair ek nk st) as (added & (HC & _) & _ & Hcnt).
  rewrite Hh in HC, Hcnt. cbn [fst snd] in HC, Hcnt.
  destruct (Hcnt ek' nk' eq_refl) as [He Hn].
  exists st', ek', nk'. split; [exact Hh|]. split; [exact Hlen|].
  split.
  { rewrite HC, firstn_app, Nat.sub_diag, firstn_all. cbn. apply app_nil_r. }
  pose proof (countSite_nonneg EmptyKeySite added).
  pose proof (countSite_nonneg NoSeparatorSite added).
  pose proof (countSites_le added) as Hle.
  rewrite HC, length_app, length_map in Hlen.
  repeat split; lia.
Qed.

(** ** What the appended fields look like *)

Lemma appendedSince_same (st : Store) : appendedSince st st = [].
Proof. unfold appendedSince. apply skipn_all. Qed.

Lemma appendedSince_Appended (st st0 st' : Store) :
  Appended st0 = Appended st -> appendedSince st st' = appendedSince st0 st'.
Proof. unfold appendedSince. intros ->. reflexivity. Qed.

(** The store after an iteration is the one before it, or the one that
    [handlePair] leaves. *)
Lemma loopBody_store (s : KeyValueSplitter) (l : Locals) (st : Store) :
  fst (loopBody s l st) = st
  \/ exists pair,
       fst (loopBody s l st)
       = fst (handlePair s pair (emptyKeyIndex l) (noSeparatorKeyIndex l) st).
Proof.
  unfold loopBody, bind, lift, ret.
  split_cases.
  all: try (left; reflexivity).
  all: right;
    match goal with
    | |- context [handlePair ?s ?p ?e ?n ?st] =>
        exists p; destruct (handlePair s p e n st) as [st' [[ek' nk']| |]]
    end.
  all: cbn [fst snd]; split_cases; reflexivity.
Qed.

(** The store after [processLog] has the history it had before, or it is the
    store that the call of [splitKeyValue] leaves. *)
Lemma processLog_store (s : KeyValueSplitter) (fuel : nat) (st : Store) :
  Appended (fst (processLog s fuel st)) = Appended st
  \/ exists v st0,
       Appended st0 = Appended st
       /\ fst (processLog s fuel st) = fst (splitKeyValue s fuel v st0).
Proof.
  assert (H : forall rest idx,
    (exists w, rangeContents s fuel rest idx st = (w, Ok false)
               /\ Appended w = Appended st)
    \/ exists v st0,
         Appended st0 = Appended st
         /\ fst (rangeContents s fuel rest idx st)
            = fst (splitKeyValue s fuel v st0)
         /\ snd (rangeContents s fuel rest idx st) <> Ok false).
  { induction rest as [|c rest IH]; intros idx; cbn [rangeContents].
    - left. exists st. split; reflexivity.
    - destruct (isSource s c); [|apply IH].
      right. exists (Value c). unfold bind, when.
      destruct (negb (KeepSource s)); cbn [removeContent ret].
      + match goal with
        | |- context [splitKeyValue s fuel (Value c) ?st0] =>
            exists st0; split; [reflexivity|];
            destruct (splitKeyValue s fuel (Value c) st0) as [st1 [[]| |]]
        end; cbn; split; try reflexivity; discriminate.
      + exists st. split; [reflexivity|].
        destruct (splitKeyValue s fuel (Value c) st) as [st1 [[]| |]];
          cbn; split; try reflexivity; discriminate. }
  unfold processLog, bind, getContents.
  destruct (H (Contents st) 0%nat) as [(w & Hw & Ha)|(v & st0 & Ha & Hf & Hr)].
  - left. rewrite Hw. unfold when.
    destruct (negb false && ErrIfSourceKeyNotFound s); cbn; exact Ha.
  - right. exists v, st0. split; [exact Ha|].
    destruct (rangeContents s fuel (Contents st) 0 st) as [st1 [[|]| |]];
      cbn [fst snd] in *; try exact Hf.
    contradiction.
Qed.

Section Entries.

Variable s : KeyValueSplitter.
Variable P : Site * Log_Content -> Prop.
Hypothesis handlePair_P :
  forall pair ek nk st,
    Forall P (appendedSince st (fst (handlePair s pair ek nk st))).

Lemma loopBody_entries (l : Locals) (st : Store) :
  Forall P (appendedSince st (fst (loopBody s l st))).
Proof.
  destruct (loopBody_store s l st) as [H|(pair & H)]; rewrite H.
  - rewrite appendedSince_same. constructor.
  - apply handlePair_P.
Qed.

Lemma splitLoop_entries (fuel : nat) :
  forall (l : Locals) (st : Store),
    Forall P (appendedSince st (fst (splitLoop s fuel l st))).
Proof.
  induction fuel as [|fuel IH]; intros l st; cbn [splitLoop];
    destruct (dIdx l <? len (content l));
    try (cbn; rewrite appendedSince_same; constructor).
  unfold bind.
  pose proof (loopBody_entries l st) as H1.
  destruct (loopBody_spec s l st) as (a1 & HG1 & _).
  rewrite (Grows_appendedSince _ _ _ HG1) in H1.
  destruct (loopBody s l st) as [st1 [[l1|]| |]]; cbn [fst snd ret] in *;
    try (rewrite (Grows_appendedSince _ _ _ HG1); exact H1).
  specialize (IH l1 st1).
  destruct (splitLoop_spec s fuel l1 st1) as (a2 & HG2 & _).
  rewrite (Grows_appendedSince _ _ _ HG2) in IH.
  rewrite (Grows_appendedSince _ _ _ (Grows_trans _ _ _ _ _ HG1 HG2)).
  apply Forall_app. split; assumption.
Qed.

Lemma processLog_entries (fuel : nat) (st : Store) :
  Forall P (appendedSince st (fst (processLog s fuel st))).
Proof.
  destruct (processLog_store s fuel st) as [H|(v & st0 & Ha & H)].
  - unfold appendedSince. rewrite H, skipn_all. constructor.
  - rewrite H, (appendedSince_Appended st st0 _ Ha). apply splitLoop_entries.
Qed.

End Entries.

Lemma appendedSince_app (st st' : Store) (added : list (Site * Log_Content)) :
  Appended st' = Appended st ++ added -> appendedSince st st' = added.
Proof.
  intros H. unfold appendedSince.
  rewrite H, skipn_app, skipn_all, Nat.sub_diag. reflexivity.
Qed.

(** The history entries of one pair. *)
Lemma handlePair_appended (s : KeyValueSplitter) (pair : gostring) (ek nk : Z)
    (st : Store) :
  let pos := strings.Index pair (Separator s) in
  exists v,
    appendedSince st (fst (handlePair s pair ek nk st))
    = if pos =? -1 then
        if DiscardWhenSeparatorNotFound s then []
        else [(NoSeparatorSite,
               field (NoSeparatorKeyPrefix s ++ strconv.Itoa nk) v)]
      else if pos =? 0 then
        [(EmptyKeySite, field (EmptyKeyPrefix s ++ strconv.Itoa ek) v)]
      else [(PlainSite, field (firstn (Z.to_nat pos) pair) v)].
Proof.
  intros pos.
  destruct (Index_range pair (Separator s)) as [Hp|[Hp0 Hp1]]; fold pos in Hp || fold pos in Hp0, Hp1.
  - destruct (getValue_total s pair) as (v & Hv). exists v.
    rewrite (handlePair_not_found s pair ek nk st v Hp Hv). rewrite Hp.
    change (-1 =? -1) with true. cbn beta iota.
    unfold bind, when, Warningf, appendContent, ret.
    destruct (ErrIfSeparatorNotFound s), (DiscardWhenSeparatorNotFound s);
      cbn [negb fst snd]; apply appendedSince_app; cbn [Appended];
      rewrite ?app_nil_r; reflexivity.
  - destruct (getValue_total s
                (skipn (Z.to_nat (pos + len (Separator s))) pair)) as (v & Hv).
    exists v.
    assert (Hne : pos <> -1) by lia.
    rewrite (handlePair_found s pair ek nk st v Hne Hv). fold pos.
    replace (pos =? -1) with false by (symmetry; apply Z.eqb_neq; lia).
    unfold bind, when, Warningf, appendContent, ret.
    destruct (pos =? 0), (ErrIfKeyIsEmpty s);
      cbn [negb fst snd]; apply appendedSince_app; cbn [Appended];
      reflexivity.
Qed.

Lemma handlePair_keys (s : KeyValueSplitter) (pair : gostring) (ek nk : Z)
    (st : Store) :
  Forall (fun e => Key (snd e) <> [])
         (appendedSince st (fst (handlePair s pair ek nk st))).
Proof.
  destruct (handlePair_appended s pair ek nk st) as (v & H). rewrite H.
  destruct (Index_range pair (Separator s)) as [Hp|[Hp0 Hp1]].
  - rewrite Hp. change (-1 =? -1) with true. cbn beta iota.
    destruct (DiscardWhenSeparatorNotFound s); repeat constructor.
    cbn. intros E. apply app_eq_nil in E. destruct E as [_ E].
    exact (Itoa_nonempty nk E).
  - replace (strings.Index pair (Separator s) =? -1) with false
      by (symmetry; apply Z.eqb_neq; lia).
    destruct (strings.Index pair (Separator s) =? 0) eqn:E0;
      repeat constructor; cbn.
    + intros E. apply app_eq_nil in E. destruct E as [_ E].
      exact (Itoa_nonempty ek E).
    + apply Z.eqb_neq in E0. intros E.
      apply (f_equal (@length ascii)) in E. rewrite length_firstn in E.
      cbn in E. pose proof (len_nonneg (Separator s)). unfold len in *. lia.
Qed.

Lemma handlePair_discards (s : KeyValueSplitter) (pair : gostring) (ek nk : Z)
    (st : Store) :
  DiscardWhenSeparatorNotFound s = true ->
  Forall (fun e => fst e <> NoSeparatorSite)
         (appendedSince st (fst (handlePair s pair ek nk st))).
Proof.
  intros Hd. destruct (handlePair_appended s pair ek nk st) as (v & H).
  rewrite H, Hd.
  destruct (_ =? -1); [constructor|].
  destruct (_ =? 0); repeat constructor; cbn; discriminate.
Qed.

(** X6: every field that [processLog] appends to a record has a non-empty
    key, whatever the configuration, the record and the outcome of the call:
    a key is the non-empty text before a separator, or a prefix followed by
    the decimal digits of a counter. *)
Theorem appended_keys_nonempty (s : KeyValueSplitter) (fuel : nat) (st : Store)
    (c : Log_Content) :
  let st' := fst (processLog s fuel st) in
  In c (map snd (appendedSince st st')) -> Key c <> [].
Proof.
  intros st' Hin. apply in_map_iff in Hin. destruct Hin as (e & <- & Hin).
  pose proof (processLog_entries s _ (handlePair_keys s) fuel st) as H.
  rewrite Forall_forall in H. apply (H e Hin).
Qed.

Lemma appended_keys_nonempty_witness :
  let s := withSeparator [] newKeyValueSplitter in
  let st := record [field (str "msg") (str "ab")] in
  Contents (fst (processLog s 5 st))
  = [field (str "msg") (str "ab"); field (str "empty_key_0") (str "ab")]
  /\ Key (field (str "empty_key_0") (str "ab")) <> [].
Proof.
  intros s st. split; [reflexivity|].
  apply (appended_keys_nonempty s 5 st). cbn. left. reflexivity.
Defined.

(** X7: with [DiscardWhenSeparatorNotFound] set, no field is ever appended
    for a pair without separator, whatever the record and the outcome of the
    call: every appended field comes from a pair that has a separator. *)
Theorem discard_appends_no_keyless_field (s : KeyValueSplitter) (fuel : nat)
    (st : Store) :
  DiscardWhenSeparatorNotFound s = true ->
  fieldsAt NoSeparatorSite (appendedSince st (fst (processLog s fuel st))) = [].
Proof.
  intros Hd.
  pose proof (processLog_entries s _
                (fun pair ek nk st0 => handlePair_discards s pair ek nk st0 Hd)
                fuel st) as H.
  unfold fieldsAt.
  induction (appendedSince st (fst (processLog s fuel st))) as [|[site c] r IH].
  - reflexivity.
  - inversion H as [|? ? Hsite Hr]; subst. cbn [filter fst].
    destruct site; cbn [Site_eqb]; try (apply IH; exact Hr).
    exfalso. apply Hsite. reflexivity.
Qed.

Lemma discard_appends_no_keyless_field_witness :
  let s := withDiscard true newKeyValueSplitter in
  let st := record [field (str "msg") (str "x" ++ [tab] ++ str "bb:22")] in
  Contents (fst (processLog s 5 st))
  = [field (str "msg") (str "x" ++ [tab] ++ str "bb:22");
     field (str "bb") (str "22")]
  /\ fieldsAt NoSeparatorSite (appendedSince st (fst (processLog s 5 st))) = [].
Proof.
  intros s st. split; [reflexivity|].
  apply (discard_appends_no_keyless_field s 5 st). reflexivity.
Defined.

(** ** Panics *)

(** In the loop of [splitKeyValue], [concatQuotePair] gets the content, the
    index of its first delimiter and the pair before it.  When quoting is
    off, or the separator has at most one byte and separator and quote
    together are at most one byte longer than the delimiter, its two slices
    are in range. *)
Lemma concatQuotePair_in_range (s : KeyValueSplitter) (content : gostring) :
  let d := strings.Index content (Delimiter s) in
  let pair := if d =? -1 then content else firstn (Z.to_nat d) content in
  Delimiter s <> [] ->
  quoting s = false
  \/ len (Separator s) <= 1
     /\ len (Separator s) + len (Quote s) <= len (Delimiter s) + 1 ->
  concatQuotePair s pair content d <> None.
Proof.
  intros d pair Hdel Hsize.
  pose proof (nonempty_len _ Hdel) as Hlen.
  pose proof (len_nonneg content) as Hc.
  assert (Hd : d = -1 \/ 0 <= d /\ d + len (Delimiter s) <= len content)
    by apply Index_range.
  destruct Hsize as [Hoff|[Hsep Hk]].
  { rewrite concatQuotePair_off by exact Hoff. discriminate. }
  destruct (opensQuote s pair) eqn:Hopen.
  2: { rewrite concatQuotePair_same by (try exact Hopen; lia). discriminate. }
  unfold opensQuote, quoting in Hopen.
  rewrite !andb_true_iff in Hopen. destruct Hopen as [[[Hf Hq] Hs] Ho].
  unfold concatQuotePair. rewrite Hf, Hq, Hs, Ho. cbn [andb].
  rewrite slice_from_Some by lia.
  set (tail := skipn (Z.to_nat (d + 1)) content).
  assert (Htail : len tail = len content - (d + 1)).
  { subst tail. unfold len in *. rewrite length_skipn. lia. }
  rewrite len_app.
  pose proof (Index_range tail (Quote s)) as Hlq.
  pose proof (len_nonneg (Separator s)) as Hs0.
  pose proof (len_nonneg (Quote s)) as Hq0.
  destruct (0 <? strings.Index tail (Quote s) + (len (Separator s) + len (Quote s)))
    eqn:E; [|discriminate].
  apply Z.ltb_lt in E.
  assert (Hpair : d = -1 -> len (Separator s) + len (Quote s) - 2 <= len content).
  { intros Hm. subst pair. rewrite Hm in Ho. change (-1 =? -1) with true in Ho.
    cbn beta iota in Ho. apply orb_true_iff in Ho. destruct Ho as [Ho|Ho].
    - apply Z.ltb_lt in Ho.
      destruct (Index_range content (Separator s ++ Quote s)) as [Hi|[_ Hi]];
        [lia|]. rewrite len_app in Hi. lia.
    - apply HasPrefix_len in Ho. lia. }
  rewrite slice_to_Some by lia. discriminate.
Qed.

Lemma loopBody_no_panic (s : KeyValueSplitter) (l : Locals) (st : Store) :
  Delimiter s <> [] ->
  quoting s = false
  \/ len (Separator s) <= 1
     /\ len (Separator s) + len (Quote s) <= len (Delimiter s) + 1 ->
  snd (loopBody s l st) <> Panic.
Proof.
  intros Hdel Hsize.
  pose proof (concatQuotePair_in_range s (content l) Hdel Hsize) as Hc.
  cbv zeta in Hc.
  pose proof (nonempty_len _ Hdel) as Hlen.
  unfold loopBody, bind.
  set (d := strings.Index (content l) (Delimiter s)) in *.
  assert (Hd : d = -1 \/ 0 <= d /\ d + len (Delimiter s) <= len (content l))
    by apply Index_range.
  assert (Hfirst :
    (if d =? -1 then ret (content l) else lift (slice_to (content l) d)) st
    = (st, Ok (if d =? -1 then content l
               else firstn (Z.to_nat d) (content l)))).
  { destruct Hd as [Hd|Hd].
    - rewrite Hd. reflexivity.
    - replace (d =? -1) with false by (symmetry; apply Z.eqb_neq; lia).
      rewrite slice_to_Some by lia. reflexivity. }
  rewrite Hfirst. unfold lift at 1.
  destruct (concatQuotePair s _ (content l) d) as [r|] eqn:Hcq;
    [|contradiction].
  apply concatQuotePair_boundary in Hcq.
  destruct (handlePair_ok s (fst r) (emptyKeyIndex l)
              (noSeparatorKeyIndex l) st) as (st1 & ek' & nk' & Hh & _).
  rewrite Hh.
  destruct (snd r =? -1); [discriminate|].
  destruct (snd r + len (Delimiter s) <=? len (content l)) eqn:E;
    [|discriminate].
  apply Z.leb_le in E. unfold lift.
  rewrite slice_from_Some by lia. discriminate.
Qed.

Lemma splitLoop_no_panic (s : KeyValueSplitter) :
  Delimiter s <> [] ->
  quoting s = false
  \/ len (Separator s) <= 1
     /\ len (Separator s) + len (Quote s) <= len (Delimiter s) + 1 ->
  forall (fuel : nat) (l : Locals) (st : Store),
    snd (splitLoop s fuel l st) <> Panic.
Proof.
  intros Hdel Hsize.
  induction fuel as [|fuel IH]; intros l st; cbn [splitLoop];
    destruct (dIdx l <? len (content l)); try discriminate.
  unfold bind.
  pose proof (loopBody_no_panic s l st Hdel Hsize) as Hb.
  destruct (loopBody s l st) as [st1 [[l1|]| |]]; cbn [snd] in *;
    try discriminate; try contradiction.
  apply IH.
Qed.

(** X8: [processLog] never panics when the delimiter is not empty and either
    quoting is off, or the separator has at most one byte and separator and
    quote together are at most one byte longer than the delimiter (as with
    the default tab and colon and a quote of one byte): every slice the call
    takes is then in range, whatever the record. *)
Theorem processLog_no_panic (s : KeyValueSplitter) (fuel : nat) (st : Store) :
  Delimiter s <> [] ->
  quoting s = false
  \/ len (Separator s) <= 1
     /\ len (Separator s) + len (Quote s) <= len (Delimiter s) + 1 ->
  snd (processLog s fuel st) <> Panic.
Proof.
  intros Hdel Hsize.
  assert (H : forall rest idx st0,
            snd (rangeContents s fuel rest idx st0) <> Panic).
  { induction rest as [|c rest IH]; intros idx st0; cbn [rangeContents].
    - discriminate.
    - destruct (isSource s c); [|apply IH].
      unfold bind, when, splitKeyValue.
      destruct (negb (KeepSource s)); cbn [removeContent ret];
        match goal with
        | |- context [splitLoop s fuel ?l ?st1] =>
            pose proof (splitLoop_no_panic s Hdel Hsize fuel l st1) as Hp;
            destruct (splitLoop s fuel l st1) as [st2 [[]| |]]
        end; cbn [snd] in *; try discriminate; contradiction. }
  unfold processLog, bind, getContents.
  specialize (H (Contents st) 0%nat st).
  destruct (rangeContents s fuel (Contents st) 0 st) as [st1 [hasKey| |]];
    cbn [snd] in *; try discriminate; try contradiction.
  unfold when. destruct (negb hasKey && ErrIfSourceKeyNotFound s); discriminate.
Qed.

Lemma processLog_no_panic_witness :
  let s := withQuote [dquote] newKeyValueSplitter in
  let st := record [field (str "msg") unterminatedQuote] in
  Delimiter s <> []
  /\ len (Separator s) + len (Quote s) <= len (Delimiter s) + 1
  /\ snd (processLog s 5 st) <> Panic.
Proof.
  intros s st.
  assert (Hd : Delimiter s <> []) by discriminate.
  assert (Hk : len (Separator s) + len (Quote s) <= len (Delimiter s) + 1)
    by (vm_compute; discriminate).
  split; [exact Hd|]. split; [exact Hk|].
  apply (processLog_no_panic s 5 st Hd). right. split; [|exact Hk].
  vm_compute. discriminate.
Defined.

(** ** How [processLog] ends *)

(** [processLog] ends normally, or as its call of [splitKeyValue] on the
    value of a field of the record ends. *)
Lemma processLog_outcome (s : KeyValueSplitter) (fuel : nat) (st : Store) :
  snd (processLog s fuel st) = Ok tt
  \/ exists c st0,
       In c (Contents st)
       /\ snd (processLog s fuel st) = snd (splitKeyValue s fuel (Value c) st0).
Proof.
  assert (H : forall rest idx st0,
    (exists b w, rangeContents s fuel rest idx st0 = (w, Ok b))
    \/ exists c st1,
         In c rest
         /\ (snd (rangeContents s fuel rest idx st0) = Panic
             /\ snd (splitKeyValue s fuel (Value c) st1) = Panic
             \/ snd (rangeContents s fuel rest idx st0) = OutOfFuel
                /\ snd (splitKeyValue s fuel (Value c) st1) = OutOfFuel)).
  { induction rest as [|c rest IH]; intros idx st0; cbn [rangeContents].
    - left. exists false, st0. reflexivity.
    - destruct (isSource s c).
      + unfold bind, when.
        destruct (negb (KeepSource s)); cbn [removeContent ret];
          match goal with
          | |- context [splitKeyValue s fuel (Value c) ?st1] =>
              destruct (splitKeyValue s fuel (Value c) st1)
                as [st2 [[]| |]] eqn:E;
              [left; exists true, st2; reflexivity
              |right; exists c, st1; rewrite E; cbn;
               split; [left; reflexivity | left; split; reflexivity]
              |right; exists c, st1; rewrite E; cbn;
               split; [left; reflexivity | right; split; reflexivity]]
          end.
      + destruct (IH (S idx) st0) as [Hl|(c' & st1 & Hin & Hs)].
        * left. exact Hl.
        * right. exists c', st1. split; [right; exact Hin | exact Hs]. }
  unfold processLog, bind, getContents.
  destruct (H (Contents st) 0%nat st)
    as [(b & w & Hr)|(c & st1 & Hin & [[Hs Hk]|[Hs Hk]])].
  - left. rewrite Hr. unfold when.
    destruct (negb b && ErrIfSourceKeyNotFound s); reflexivity.
  - right. exists c, st1. split; [exact Hin|]. rewrite Hk.
    destruct (rangeContents s fuel (Contents st) 0 st) as [st2 [b| |]];
      cbn [snd] in *; try discriminate. reflexivity.
  - right. exists c, st1. split; [exact Hin|]. rewrite Hk.
    destruct (rangeContents s fuel (Contents st) 0 st) as [st2 [b| |]];
      cbn [snd] in *; try discriminate. reflexivity.
Qed.

(** X9: with a delimiter of one byte, [processLog] always ends, by returning
    or by a panic, quoting or not: the loop of [splitKeyValue] runs at most
    once more than the source value has bytes. *)
Theorem processLog_ends_one_byte_delimiter (s : KeyValueSplitter) (fuel : nat)
    (st : Store) :
  len (Delimiter s) = 1 ->
  (forall c, In c (Contents st) -> (length (Value c) < fuel)%nat) ->
  snd (processLog s fuel st) <> OutOfFuel.
Proof.
  intros Hdel Hfuel.
  destruct (processLog_outcome s fuel st) as [H|(c & st0 & Hin & H)];
    rewrite H; [discriminate|].
  unfold splitKeyValue.
  apply splitLoop_halts_one_byte_delimiter; cbn [dIdx content];
    [exact Hdel | lia | apply Hfuel; exact Hin].
Qed.

Lemma processLog_ends_one_byte_delimiter_witness :
  let s := withQuote [dquote] newKeyValueSplitter in
  let st := record [field (str "msg") scenario4] in
  len (Delimiter s) = 1
  /\ snd (processLog s 8 st) <> OutOfFuel.
Proof.
  intros s st. split; [reflexivity|].
  apply (processLog_ends_one_byte_delimiter s 8 st).
  - reflexivity.
  - intros c [<-|[]]. cbn. lia.
Defined.

(** X10: with quoting off and a non-empty delimiter, [processLog] returns
    normally on every record: it does not panic, and the loop of
    [splitKeyValue] runs at most as many times as the source value has
    bytes. *)
Theorem processLog_returns_quoting_off (s : KeyValueSplitter) (fuel : nat)
    (st : Store) :
  quoting s = false ->
  Delimiter s <> [] ->
  (forall c, In c (Contents st) -> (length (Value c) <= fuel)%nat) ->
  snd (processLog s fuel st) = Ok tt.
Proof.
  intros Hq Hdel Hfuel.
  destruct (processLog_outcome s fuel st) as [H|(c & st0 & Hin & H)];
    rewrite H; [reflexivity|].
  unfold splitKeyValue.
  apply splitLoop_halts_quoting_off; cbn [dIdx content];
    [exact Hq | exact Hdel | lia | apply Hfuel; exact Hin].
Qed.

Lemma processLog_returns_quoting_off_witness :
  let s := withDelimiter (str "||") newKeyValueSplitter in
  let st := record [field (str "msg") (str "a:1||bbb:2||c")] in
  quoting s = false /\ Delimiter s <> []
  /\ snd (processLog s 13 st) = Ok tt.
Proof.
  intros s st. split; [reflexivity|]. split; [discriminate|].
  apply (processLog_returns_quoting_off s 13 st).
  - reflexivity.
  - discriminate.
  - intros c [<-|[]]. cbn. lia.
Defined.

(** ** When the loop never ends *)

(** How an iteration goes on depends on the content alone, not on the
    counters, the old [dIdx] or the store. *)
Lemma loopBody_sameFlow (s : KeyValueSplitter) (l1 l2 : Locals)
    (st1 st2 : Store) :
  content l1 = content l2 ->
  sameFlow (snd (loopBody s l1 st1)) (snd (loopBody s l2 st2)).
Proof.
  intros Hc. unfold loopBody, bind. rewrite Hc.
  set (d := strings.Index (content l2) (Delimiter s)).
  assert (Hfirst : forall st,
    (if d =? -1 then ret (content l2) else lift (slice_to (content l2) d)) st
    = (st, match (if d =? -1 then Some (content l2)
                  else slice_to (content l2) d) with
           | Some p => Ok p
           | None => Panic
           end)).
  { intros st. destruct (d =? -1); [reflexivity|].
    unfold lift. destruct (slice_to (content l2) d); reflexivity. }
  rewrite !Hfirst.
  destruct (if d =? -1 then Some (content l2) else slice_to (content l2) d)
    as [pair|]; [|exact I].
  unfold lift at 1 3.
  destruct (concatQuotePair s pair (content l2) d) as [r|]; [|exact I].
  destruct (handlePair_ok s (fst r) (emptyKeyIndex l1)
              (noSeparatorKeyIndex l1) st1) as (sa & ea & na & Ha & _).
  destruct (handlePair_ok s (fst r) (emptyKeyIndex l2)
              (noSeparatorKeyIndex l2) st2) as (sb & eb & nb & Hb & _).
  rewrite Ha, Hb.
  destruct (snd r =? -1); [exact I|].
  destruct (snd r + len (Delimiter s) <=? len (content l2)).
  - unfold lift.
    destruct (slice_from (content l2) (snd r + len (Delimiter s)));
      cbn; [split; reflexivity | exact I].
  - cbn. split; reflexivity.
Qed.

Lemma splitLoop_stuck (s : KeyValueSplitter) (src : gostring) (d : Z) :
  (forall l st, content l = src ->
     exists st1 l1, loopBody s l st = (st1, Ok (Continue l1))
                    /\ content l1 = src /\ dIdx l1 = d) ->
  d < len src ->
  forall (fuel : nat) (l : Locals) (st : Store),
    content l = src -> dIdx l < len src ->
    snd (splitLoop s fuel l st) = OutOfFuel.
Proof.
  intros Hbody Hd.
  induction fuel as [|fuel IH]; intros l st Hc Hl; cbn [splitLoop];
    rewrite Hc;
    (replace (dIdx l <? len src) with true
       by (symmetry; apply Z.ltb_lt; exact Hl)).
  - reflexivity.
  - unfold bind. destruct (Hbody l st Hc) as (st1 & l1 & Hb & Hc1 & Hd1).
    rewrite Hb. apply IH; [exact Hc1 | rewrite Hd1; exact Hd].
Qed.

(** X11: if the first iteration of [splitKeyValue] on a source value leaves
    the content as it is (the boundary is so close to the end that the
    delimiter does not fit after it) with [dIdx] still below its length,
    then the call never returns: every later iteration does the same, and
    the run is still going whatever the fuel. *)
Theorem splitKeyValue_never_returns (s : KeyValueSplitter) (src : gostring)
    (st st1 : Store) (l1 : Locals) (fuel : nat) (st' : Store) :
  loopBody s (mkLocals src 0 0 0) st = (st1, Ok (Continue l1)) ->
  content l1 = src ->
  dIdx l1 < len src ->
  snd (splitKeyValue s fuel src st') = OutOfFuel.
Proof.
  intros Hb Hc Hd.
  assert (H0 : 0 <= dIdx l1).
  { apply (loopBody_continue s (mkLocals src 0 0 0) l1 st).
    rewrite Hb. reflexivity. }
  unfold splitKeyValue.
  apply (splitLoop_stuck s src (dIdx l1)); cbn [content dIdx];
    try reflexivity; try lia.
  intros l st0 Hl.
  pose proof (loopBody_sameFlow s (mkLocals src 0 0 0) l st st0) as Hs.
  cbn [content] in Hs. specialize (Hs (eq_sym Hl)).
  rewrite Hb in Hs. cbn [snd] in Hs.
  destruct (loopBody s l st0) as [st2 [[l2|]| |]]; cbn [snd sameFlow] in Hs;
    try contradiction.
  destruct Hs as [Hs1 Hs2].
  exists st2, l2. split; [reflexivity|]. split; congruence.
Qed.

Lemma splitKeyValue_never_returns_witness :
  len quotedThenZ = 9
  /\ snd (splitKeyValue twoTabs 1000 quotedThenZ (record [])) = OutOfFuel.
Proof.
  split; [reflexivity|].
  apply (splitKeyValue_never_returns twoTabs quotedThenZ (record [])
           (fst (appendContent PlainSite
                   (field (str "a") (str "x" ++ [tab; tab] ++ str "y"))
                   (record [])))
           (mkLocals quotedThenZ 8 0 0) 1000 (record [])).
  - apply quotedThenZ_iteration.
  - reflexivity.
  - reflexivity.
Defined.

(** ** The state of the loop *)

Lemma Reaches_suffix (s : KeyValueSplitter) (l l' : Locals) (st st' : Store) :
  Reaches s l st l' st' ->
  exists n, content l' = skipn n (content l).
Proof.
  induction 1 as [l st|l l1 l2 st st1 st2 Hguard Hbody _ IH].
  - exists 0%nat. reflexivity.
  - destruct IH as (n & Hn).
    destruct (loopBody_continue s l l1 st) as [_ [[_ Hc]|[_ Hc]]];
      [rewrite Hbody; reflexivity | |].
    + rewrite Hc, skipn_skipn in Hn. eexists. exact Hn.
    + rewrite Hc in Hn. exists n. exact Hn.
Qed.

(** X12: in every state that the loop of [splitKeyValue] reaches, [dIdx] is
    not negative, the remaining content is a suffix of the source value (the
    scan only moves forward), both counters are at least 0 and their sum is
    at most the number of fields that the call has appended so far. *)
Theorem loop_state_invariant (s : KeyValueSplitter) (src : gostring)
    (l : Locals) (st st' : Store) :
  Reaches s (mkLocals src 0 0 0) st l st' ->
  0 <= dIdx l
  /\ (exists n, content l = skipn n src)
  /\ 0 <= emptyKeyIndex l
  /\ 0 <= noSeparatorKeyIndex l
  /\ Z.of_nat (length (Contents st)) + emptyKeyIndex l + noSeparatorKeyIndex l
     <= Z.of_nat (length (Contents st')).
Proof.
  intros H. split; [|split].
  - apply (Reaches_dIdx s _ _ _ _ H). cbn. lia.
  - apply (Reaches_suffix s _ _ _ _ H).
  - apply (counters_bounded s src l st st' H).
Qed.

Lemma loop_state_invariant_witness :
  let st1 := fst (appendContent EmptyKeySite
                    (field (str "empty_key_0") (str "1")) 
                    (fst (Warningf (str "the key of pair with value (1) is empty")
                            (record [])))) in
  let l1 := mkLocals (skipn 3 mixedContent) 2 1 0 in
  Reaches newKeyValueSplitter (mkLocals mixedContent 0 0 0) (record []) l1 st1
  /\ Z.of_nat (length (Contents (record []))) + emptyKeyIndex l1
     + noSeparatorKeyIndex l1
     <= Z.of_nat (length (Contents st1)).
Proof.
  intros st1 l1.
  assert (H : Reaches newKeyValueSplitter (mkLocals mixedContent 0 0 0)
                (record []) l1 st1).
  { eapply Reaches_step; [| |apply Reaches_here].
    - vm_compute. reflexivity.
    - reflexivity. }
  split; [exact H|].
  apply (loop_state_invariant newKeyValueSplitter mixedContent l1 (record [])
           st1 H).
Defined.

(** ** Diagnostics *)

Lemma sameRecord_refl (a : Store) : sameRecord a a.
Proof. split; reflexivity. Qed.

Lemma handlePair_silent (s : KeyValueSplitter) (pair : gostring) (ek nk : Z)
    (a b : Store) :
  sameRecord a b ->
  snd (handlePair s pair ek nk a) = snd (handlePair (silent s) pair ek nk b)
  /\ sameRecord (fst (handlePair s pair ek nk a))
                (fst (handlePair (silent s) pair ek nk b))
  /\ Warnings (fst (handlePair (silent s) pair ek nk b)) = Warnings b.
Proof.
  intros [HC HA].
  destruct (Index_range pair (Separator s)) as [Hp|[Hp0 Hp1]].
  - destruct (getValue_total s pair) as (v & Hv).
    rewrite (handlePair_not_found s pair ek nk a v Hp Hv).
    rewrite (handlePair_not_found (silent s) pair ek nk b v Hp Hv).
    unfold bind, when, Warningf, appendContent, ret, sameRecord.
    cbn [silent ErrIfSeparatorNotFound DiscardWhenSeparatorNotFound
         NoSeparatorKeyPrefix].
    destruct (ErrIfSeparatorNotFound s), (DiscardWhenSeparatorNotFound s);
      cbn; rewrite HC, HA; repeat split; reflexivity.
  - destruct (getValue_total s
                (skipn (Z.to_nat (strings.Index pair (Separator s)
                                  + len (Separator s))) pair)) as (v & Hv).
    assert (Hne : strings.Index pair (Separator s) <> -1) by lia.
    rewrite (handlePair_found s pair ek nk a v Hne Hv).
    rewrite (handlePair_found (silent s) pair ek nk b v Hne Hv).
    unfold bind, when, Warningf, appendContent, ret, sameRecord.
    cbn [silent ErrIfKeyIsEmpty EmptyKeyPrefix Separator].
    destruct (strings.Index pair (Separator s) =? 0), (ErrIfKeyIsEmpty s);
      cbn; rewrite HC, HA; repeat split; reflexivity.
Qed.

Lemma loopBody_silent (s : KeyValueSplitter) (l : Locals) (a b : Store) :
  sameRecord a b ->
  snd (loopBody s l a) = snd (loopBody (silent s) l b)
  /\ sameRecord (fst (loopBody s l a)) (fst (loopBody (silent s) l b))
  /\ Warnings (fst (loopBody (silent s) l b)) = Warnings b.
Proof.
  intros Hab.
  assert (Hcq : forall p c d,
            concatQuotePair (silent s) p c d = concatQuotePair s p c d)
    by reflexivity.
  unfold loopBody, bind.
  change (Delimiter (silent s)) with (Delimiter s).
  set (d := strings.Index (content l) (Delimiter s)).
  assert (Hfirst : forall st,
    (if d =? -1 then ret (content l) else lift (slice_to (content l) d)) st
    = (st, match (if d =? -1 then Some (content l)
                  else slice_to (content l) d) with
           | Some p => Ok p
           | None => Panic
           end)).
  { intros st. destruct (d =? -1); [reflexivity|].
    unfold lift. destruct (slice_to (content l) d); reflexivity. }
  rewrite !Hfirst.
  destruct (if d =? -1 then Some (content l) else slice_to (content l) d)
    as [pair|]; [|cbn; repeat split; apply Hab].
  rewrite !Hcq. unfold lift.
  destruct (concatQuotePair s pair (content l) d) as [r|];
    [|cbn; repeat split; apply Hab].
  destruct (handlePair_silent s (fst r) (emptyKeyIndex l)
              (noSeparatorKeyIndex l) a b Hab) as (Hs & Hr & Hw).
  destruct (handlePair_ok s (fst r) (emptyKeyIndex l)
              (noSeparatorKeyIndex l) a) as (sa & ea & na & Ha & _).
  destruct (handlePair_ok (silent s) (fst r) (emptyKeyIndex l)
              (noSeparatorKeyIndex l) b) as (sb & eb & nb & Hb & _).
  rewrite Ha, Hb in *. cbn [fst snd] in *.
  injection Hs as <- <-.
  destruct (snd r =? -1);
    [cbn; repeat split; first [assumption | apply Hr]|].
  destruct (snd r + len (Delimiter s) <=? len (content l)).
  - destruct (slice_from (content l) (snd r + len (Delimiter s)));
      cbn; repeat split; first [assumption | apply Hr].
  - cbn. repeat split; first [assumption | apply Hr].
Qed.

Ltac same_record :=
  cbn [fst snd ret];
  repeat split; try reflexivity; try assumption;
  match goal with
  | H : sameRecord _ _ |- _ => apply H
  end.

Lemma splitLoop_silent (s : KeyValueSplitter) (fuel : nat) :
  forall (l : Locals) (a b : Store),
    sameRecord a b ->
    snd (splitLoop s fuel l a) = snd (splitLoop (silent s) fuel l b)
    /\ sameRecord (fst (splitLoop s fuel l a))
                  (fst (splitLoop (silent s) fuel l b))
    /\ Warnings (fst (splitLoop (silent s) fuel l b)) = Warnings b.
Proof.
  induction fuel as [|fuel IH]; intros l a b Hab; cbn [splitLoop].
  - destruct (dIdx l <? len (content l)); unfold outOfFuel; same_record.
  - destruct (dIdx l <? len (content l)); [|same_record].
    unfold bind.
    destruct (loopBody_silent s l a b Hab) as (Hs & Hr & Hw).
    destruct (loopBody s l a) as [a1 ra];
      destruct (loopBody (silent s) l b) as [b1 rb].
    cbn [fst snd] in *. subst rb.
    destruct ra as [[l1|]| |]; try same_record.
    destruct (IH l1 a1 b1 Hr) as (Hs' & Hr' & Hw').
    split; [exact Hs'|]. split; [exact Hr'|]. congruence.
Qed.

Lemma processLog_silent (s : KeyValueSplitter) (fuel : nat) (st : Store) :
  snd (processLog s fuel st) = snd (processLog (silent s) fuel st)
  /\ sameRecord (fst (processLog s fuel st))
                (fst (processLog (silent s) fuel st))
  /\ Warnings (fst (processLog (silent s) fuel st)) = Warnings st.
Proof.
  assert (H : forall rest idx,
    snd (rangeContents s fuel rest idx st)
    = snd (rangeContents (silent s) fuel rest idx st)
    /\ sameRecord (fst (rangeContents s fuel rest idx st))
                  (fst (rangeContents (silent s) fuel rest idx st))
    /\ Warnings (fst (rangeContents (silent s) fuel rest idx st))
       = Warnings st).
  { induction rest as [|c rest IH]; intros idx; cbn [rangeContents].
    - split; [reflexivity|]. split; [apply sameRecord_refl | reflexivity].
    - change (isSource (silent s) c) with (isSource s c).
      destruct (isSource s c); [|apply IH].
      unfold bind, when, splitKeyValue.
      change (KeepSource (silent s)) with (KeepSource s).
      destruct (negb (KeepSource s)); cbn [removeContent ret];
        match goal with
        | |- context [splitLoop s fuel ?l ?st0] =>
            destruct (splitLoop_silent s fuel l st0 st0 (sameRecord_refl st0))
              as (Hs & Hr & Hw);
            destruct (splitLoop s fuel l st0) as [a1 ra];
            destruct (splitLoop (silent s) fuel l st0) as [b1 rb]
        end; cbn [fst snd] in *; subst rb;
        destruct ra as [[]| |]; same_record. }
  unfold processLog, bind, getContents.
  destruct (H (Contents st) 0%nat) as (Hs & Hr & Hw).
  destruct (rangeContents s fuel (Contents st) 0 st) as [a1 ra];
    destruct (rangeContents (silent s) fuel (Contents st) 0 st) as [b1 rb].
  cbn [fst snd] in *. subst rb.
  destruct ra as [hasKey| |]; try same_record.
  unfold when. cbn [silent ErrIfSourceKeyNotFound]. rewrite andb_false_r.
  destruct (negb hasKey && ErrIfSourceKeyNotFound s); cbn; same_record.
Qed.

(** X13: the diagnostics are advisory.  Two configurations that differ only
    in [ErrIfSourceKeyNotFound], [ErrIfSeparatorNotFound] and
    [ErrIfKeyIsEmpty] process a record in the same way: the call ends in the
    same way and leaves the same fields in the record; only the warnings
    sent differ. *)
Theorem diagnostics_are_advisory (s1 s2 : KeyValueSplitter) (fuel : nat)
    (st : Store) :
  silent s1 = silent s2 ->
  snd (processLog s1 fuel st) = snd (processLog s2 fuel st)
  /\ Contents (fst (processLog s1 fuel st))
     = Contents (fst (processLog s2 fuel st)).
Proof.
  intros H.
  destruct (processLog_silent s1 fuel st) as (Hs1 & [Hc1 _] & _).
  destruct (processLog_silent s2 fuel st) as (Hs2 & [Hc2 _] & _).
  rewrite Hs1, Hs2, Hc1, Hc2, H. split; reflexivity.
Qed.

Lemma diagnostics_are_advisory_witness :
  let st := record [field (str "msg") mixedContent] in
  silent newKeyValueSplitter = silent (silent newKeyValueSplitter)
  /\ length (Warnings (fst (processLog newKeyValueSplitter 9 st))) = 5%nat
  /\ Warnings (fst (processLog (silent newKeyValueSplitter) 9 st)) = []
  /\ Contents (fst (processLog newKeyValueSplitter 9 st))
     = Contents (fst (processLog (silent newKeyValueSplitter) 9 st)).
Proof.
  intros st. split; [reflexivity|]. split; [reflexivity|].
  split; [reflexivity|].
  apply (diagnostics_are_advisory newKeyValueSplitter
           (silent newKeyValueSplitter) 9 st).
  reflexivity.
Defined.

(** X14: with the three diagnostic switches off, [processLog] sends no
    warning, whatever the record and however the call ends. *)
Theorem no_warning_when_switched_off (s : KeyValueSplitter) (fuel : nat)
    (st : Store) :
  ErrIfSourceKeyNotFound s = false ->
  ErrIfSeparatorNotFound s = false ->
  ErrIfKeyIsEmpty s = false ->
  Warnings (fst (processLog s fuel st)) = Warnings st.
Proof.
  intros H1 H2 H3.
  assert (Hs : silent s = s).
  { destruct s. cbn in *. subst. reflexivity. }
  rewrite <- Hs. apply processLog_silent.
Qed.

Lemma no_warning_when_switched_off_witness :
  let s := silent newKeyValueSplitter in
  let st := record [field (str "other") (str "x")] in
  Warnings (fst (processLog (withSourceKey (str "msg") s) 3 st)) = [].
Proof.
  intros s st.
  apply (no_warning_when_switched_off (withSourceKey (str "msg") s) 3 st);
    reflexivity.
Defined.

(** ** A value without delimiter and without separator *)

(** X15: a non-empty source value that contains neither the delimiter nor
    the separator, and is not re-indexed by [concatQuotePair], is one pair
    without key: [splitKeyValue] returns normally, sends the warning about
    the separator when [ErrIfSeparatorNotFound] is set, and appends the
    dequoted value under the key [NoSeparatorKeyPrefix + "0"], or nothing
    when such pairs are discarded. *)
Theorem keyless_value (s : KeyValueSplitter) (src : gostring) (fuel : nat)
    (st : Store) :
  let run := splitKeyValue s (S fuel) src st in
  src <> [] ->
  strings.Index src (Delimiter s) = -1 ->
  strings.Index src (Separator s) = -1 ->
  opensQuote s src = false ->
  exists v,
    getValue s src = Some v
    /\ snd run = Ok tt
    /\ Contents (fst run)
       = Contents st
         ++ (if DiscardWhenSeparatorNotFound s then []
             else [field (NoSeparatorKeyPrefix s ++ str "0") v])
    /\ Warnings (fst run)
       = Warnings st
         ++ (if ErrIfSeparatorNotFound s
             then [mkAlarm (str "KV_SPLITTER_ALARM")
                           (str "can not find separator in " ++ src)]
             else []).
Proof.
  intros run Hne Hdel Hsep Hq.
  destruct (getValue_total s src) as (v & Hv).
  exists v. split; [exact Hv|].
  assert (Hd : Delimiter s <> []).
  { intros E. rewrite E, Index_nil_r in Hdel. discriminate. }
  assert (Hrun : run = (handlePair s src 0 0 ;;; ret tt) st).
  { subst run. unfold splitKeyValue. cbn [splitLoop dIdx content].
    replace (0 <? len src) with true
      by (symmetry; apply Z.ltb_lt, nonempty_len; exact Hne).
    unfold bind at 1.
    rewrite loopBody_plain; cbn [content emptyKeyIndex noSeparatorKeyIndex];
      rewrite ?Hdel; change (-1 =? -1) with true; cbn beta iota;
      try assumption.
    unfold bind.
    destruct (handlePair s src 0 0 st) as [st1 [[ek' nk']| |]];
      reflexivity. }
  rewrite Hrun. unfold bind.
  rewrite (handlePair_not_found s src 0 0 st v Hsep Hv).
  change (strconv.Itoa 0) with (str "0").
  unfold bind, when, Warningf, appendContent, ret.
  destruct (ErrIfSeparatorNotFound s), (DiscardWhenSeparatorNotFound s);
    cbn; rewrite ?app_nil_r; repeat split; reflexivity.
Qed.

Lemma keyless_value_witness :
  let run := splitKeyValue newKeyValueSplitter 1 (str "novalue") (record []) in
  snd run = Ok tt
  /\ Contents (fst run) = [field (str "no_separator_key_0") (str "novalue")]
  /\ Warnings (fst run)
     = [mkAlarm (str "KV_SPLITTER_ALARM")
                (str "can not find separator in novalue")].
Proof.
  intros run.
  destruct (keyless_value newKeyValueSplitter (str "novalue") 0 (record []))
    as (v & Hv & Hok & Hc & Hw).
  - discriminate.
  - reflexivity.
  - reflexivity.
  - reflexivity.
  - injection Hv as <-. split; [exact Hok|]. split; [exact Hc | exact Hw].
Defined.

(** ** Batches *)

Lemma processLog_contents (s : KeyValueSplitter) (fuel : nat) (st : Store) :
  exists new,
    Contents (fst (processLog s fuel st)) = keptFields s (Contents st) ++ new.
Proof.
  destruct (rangeContents_spec s fuel (Contents st) [] st eq_refl)
    as (added & Hc & _).
  cbn [length app] in Hc. exists (map snd added).
  unfold processLog, bind, getContents at 1.
  destruct (rangeContents s fuel (Contents st) 0 st) as [st1 [hasKey| |]];
    cbn [fst] in *; try exact Hc.
  unfold when. destruct (negb hasKey && ErrIfSourceKeyNotFound s);
    cbn; exact Hc.
Qed.

Lemma processEach_records (s : KeyValueSplitter) (fuel : nat) :
  forall (logArray : list (list Log_Content)) (sink : list Alarm)
         (trace : list (Site * Log_Content)),
    Forall2 (fun log log' =>
               log' = log \/ exists new, log' = keptFields s log ++ new)
            logArray (Logs (fst (processEach s fuel logArray sink trace)))
    /\ (snd (processEach s fuel logArray sink trace) = Ok tt ->
        Forall2 (fun log log' => exists new, log' = keptFields s log ++ new)
                logArray (Logs (fst (processEach s fuel logArray sink trace)))).
Proof.
  induction logArray as [|log rest IH]; intros sink trace;
    cbn [processEach].
  - cbn. split; [constructor | intros _; constructor].
  - destruct (processLog_contents s fuel (mkStore log sink trace))
      as (new & Hnew). cbn [Contents] in Hnew.
    destruct (processLog s fuel (mkStore log sink trace)) as [st r].
    cbn [fst] in Hnew.
    assert (Hrest : Forall2 (fun l l' : list Log_Content =>
                      l' = l \/ exists n, l' = keptFields s l ++ n) rest rest).
    { clear. induction rest; constructor; [left; reflexivity | assumption]. }
    destruct r as [[]| |].
    + destruct (IH (Warnings st) (Appended st)) as [H1 H2].
      destruct (processEach s fuel rest (Warnings st) (Appended st))
        as [b r]. cbn [fst snd Logs] in *.
      split.
      * constructor; [right; exists new; exact Hnew | exact H1].
      * intros Hr. constructor; [exists new; exact Hnew | exact (H2 Hr)].
    + cbn [fst snd Logs]. split; [|discriminate].
      constructor; [right; exists new; exact Hnew | exact Hrest].
    + cbn [fst snd Logs]. split; [|discriminate].
      constructor; [right; exists new; exact Hnew | exact Hrest].
Qed.

(** X16: [ProcessLogs] returns the batch it was given, record for record:
    the number and the order of the records never change, whatever happens.
    Each record is either untouched (the batch stopped before it) or has its
    kept fields followed by appended ones; when the batch ends normally,
    every record is of that second kind. *)
Theorem ProcessLogs_keeps_records (s : KeyValueSplitter) (fuel : nat)
    (b : Batch) :
  let b' := fst (ProcessLogs s fuel b) in
  length (Logs b') = length (Logs b)
  /\ Forall2 (fun log log' =>
                log' = log \/ exists new, log' = keptFields s log ++ new)
             (Logs b) (Logs b')
  /\ (snd (ProcessLogs s fuel b) = Ok tt ->
      Forall2 (fun log log' => exists new, log' = keptFields s log ++ new)
              (Logs b) (Logs b')).
Proof.
  intros b'. subst b'. unfold ProcessLogs.
  destruct (processEach_records s fuel (Logs b) (Sink b) (Trace b)) as [H1 H2].
  split; [|split; assumption].
  symmetry. apply (Forall2_length H1).
Qed.

Lemma ProcessLogs_keeps_records_witness :
  let b := mkBatch [[field (str "msg") (str "a:1")];
                    [field (str "msg") (str "k:v")]] [] [] in
  snd (ProcessLogs newKeyValueSplitter 4 b) = Ok tt
  /\ Forall2 (fun log log' =>
                exists new, log' = keptFields newKeyValueSplitter log ++ new)
             (Logs b) (Logs (fst (ProcessLogs newKeyValueSplitter 4 b))).
Proof.
  intros b. split; [reflexivity|].
  apply (ProcessLogs_keeps_records newKeyValueSplitter 4 b). reflexivity.
Defined.

(** X17: a batch in which no record has the source field comes back with
    every record as it was, and [ProcessLogs] ends normally; the logger gets
    one warning per record when [ErrIfSourceKeyNotFound] is set, and none
    otherwise. *)
Theorem ProcessLogs_source_absent (s : KeyValueSplitter) (fuel : nat)
    (b : Batch) :
  Forall (fun log => existsb (isSource s) log = false) (Logs b) ->
  snd (ProcessLogs s fuel b) = Ok tt
  /\ Logs (fst (ProcessLogs s fuel b)) = Logs b
  /\ Trace (fst (ProcessLogs s fuel b)) = Trace b
  /\ Sink (fst (ProcessLogs s fuel b))
     = Sink b
       ++ (if ErrIfSourceKeyNotFound s
           then repeat (mkAlarm (str "KV_SPLITTER_ALARM")
                                (str "can not find key: " ++ SourceKey s))
                       (length (Logs b))
           else []).
Proof.
  unfold ProcessLogs. destruct b as [logs sink trace]. cbn [Logs Sink Trace].
  revert sink trace.
  induction logs as [|log rest IH]; intros sink trace Hall; cbn [processEach].
  - cbn. destruct (ErrIfSourceKeyNotFound s); rewrite app_nil_r;
      repeat split; reflexivity.
  - inversion Hall as [|? ? Hlog Hrest]; subst.
    assert (E : processLog s fuel (mkStore log sink trace)
                = when (ErrIfSourceKeyNotFound s)
                       (Warningf (str "can not find key: " ++ SourceKey s))
                       (mkStore log sink trace)).
    { unfold processLog, bind, getContents. cbn [Contents].
      rewrite (rangeContents_absent s fuel log 0 _ Hlog). reflexivity. }
    rewrite E. unfold when, Warningf, ret.
    destruct (ErrIfSourceKeyNotFound s) eqn:Herr; cbn [Contents Warnings Appended].
    + destruct (IH (sink ++ [mkAlarm (str "KV_SPLITTER_ALARM")
                               (str "can not find key: " ++ SourceKey s)])
                  trace Hrest) as (H1 & H2 & H3 & H4).
      destruct (processEach s fuel rest _ trace) as [b r].
      cbn [fst snd Logs Sink Trace] in *.
      split; [exact H1|]. split; [rewrite H2; reflexivity|].
      split; [exact H3|]. rewrite H4, <- app_assoc. reflexivity.
    + destruct (IH sink trace Hrest) as (H1 & H2 & H3 & H4).
      destruct (processEach s fuel rest sink trace) as [b r].
      cbn [fst snd Logs Sink Trace] in *.
      split; [exact H1|]. split; [rewrite H2; reflexivity|].
      split; [exact H3 | exact H4].
Qed.

Lemma ProcessLogs_source_absent_witness :
  let s := withSourceKey (str "msg") newKeyValueSplitter in
  let b := mkBatch [[field (str "k") (str "v")]; []] [] [] in
  Logs (fst (ProcessLogs s 3 b)) = Logs b
  /\ length (Sink (fst (ProcessLogs s 3 b))) = 2%nat.
Proof.
  intros s b.
  destruct (ProcessLogs_source_absent s 3 b) as (_ & H2 & _ & H4).
  - repeat constructor.
  - split; [exact H2|]. rewrite H4. reflexivity.
Defined.

(** ** The field that [processLog] parses *)

Lemma rangeContents_found (s : KeyValueSplitter) (fuel : nat)
    (c : Log_Content) (post : list Log_Content) :
  isSource s c = true ->
  forall (pre : list Log_Content) (idx : nat) (st : Store),
    existsb (isSource s) pre = false ->
    rangeContents s fuel (pre ++ c :: post) idx st
    = (when (negb (KeepSource s)) (removeContent (idx + length pre)) ;;;
       splitKeyValue s fuel (Value c) ;;; ret true) st.
Proof.
  intros Hc. induction pre as [|p pre IH]; intros idx st Hpre;
    cbn [app rangeContents].
  - rewrite Hc, Nat.add_0_r. reflexivity.
  - cbn [existsb] in Hpre. apply orb_false_iff in Hpre.
    destruct Hpre as [Hp Hpre]. rewrite Hp, (IH (S idx) st Hpre).
    cbn [length]. rewrite Nat.add_succ_r. reflexivity.
Qed.

(** X18: [processLog] parses the first field that matches the source key,
    and only that one: for a record whose fields are [pre], the source field
    [c] and [post], with no source field in [pre], the call is the call of
    [splitKeyValue] on the value of [c], on the record as it is when
    [KeepSource] is set and on the record without [c] otherwise.  In
    particular, when that value is empty the call returns normally, appends
    nothing and sends no warning. *)
Theorem processLog_parses_first_source (s : KeyValueSplitter) (fuel : nat)
    (st : Store) (pre post : list Log_Content) (c : Log_Content) :
  let start :=
    if KeepSource s then st
    else {| Contents := pre ++ post;
            Warnings := Warnings st;
            Appended := Appended st |} in
  Contents st = pre ++ c :: post ->
  existsb (isSource s) pre = false ->
  isSource s c = true ->
  processLog s fuel st = splitKeyValue s fuel (Value c) start
  /\ (Value c = [] -> processLog s fuel st = (start, Ok tt)).
Proof.
  intros start Hst Hpre Hc.
  assert (H : processLog s fuel st = splitKeyValue s fuel (Value c) start).
  { unfold processLog, bind at 1 2, getContents. rewrite Hst.
    rewrite (rangeContents_found s fuel c post Hc pre 0 st Hpre).
    cbn [Nat.add]. unfold bind, when. subst start.
    destruct (KeepSource s); cbn [negb removeContent ret].
    - destruct (splitKeyValue s fuel (Value c) st) as [st1 [[]| |]];
        reflexivity.
    - rewrite Hst, removeContent_at.
      destruct (splitKeyValue s fuel (Value c) _) as [st1 [[]| |]];
        reflexivity. }
  split; [exact H|].
  intros Hv. rewrite H, Hv. apply splitKeyValue_empty.
Qed.

Lemma processLog_parses_first_source_witness :
  let s := mkSplitter (str "msg") [tab] (str ":") false
             defaultEmptyKeyPrefix defaultNoSeparatorKeyPrefix false []
             false true true true in
  let st := record [field (str "k") (str "v"); field (str "msg") [];
                    field (str "msg") (str "a:1")] in
  processLog s 3 st
  = (record [field (str "k") (str "v"); field (str "msg") (str "a:1")], Ok tt).
Proof.
  intros s st.
  apply (processLog_parses_first_source s 3 st [field (str "k") (str "v")]
           [field (str "msg") (str "a:1")] (field (str "msg") []));
    reflexivity.
Defined.

(** ** A pair put together and split again *)

(** X19: with quoting off, a source value made of a non-empty key, the
    separator and a value, in which the separator does not occur before the
    end of the key and the delimiter does not occur at all, is split into
    that key and that value: [splitKeyValue] returns normally after
    appending this one field, without any warning. *)
Theorem pair_round_trip (s : KeyValueSplitter) (k v : gostring) (fuel : nat)
    (st : Store) :
  let src := k ++ Separator s ++ v in
  quoting s = false ->
  k <> [] ->
  strings.Index src (Separator s) = len k ->
  strings.Index src (Delimiter s) = -1 ->
  splitKeyValue s (S fuel) src st
  = (fst (appendContent PlainSite (field k v) st), Ok tt).
Proof.
  intros src Hq Hk Hsep Hdel.
  assert (Hd : Delimiter s <> []).
  { intros E. rewrite E, Index_nil_r in Hdel. discriminate. }
  pose proof (nonempty_len _ Hk) as Hlen.
  assert (Hne : src <> []).
  { subst src. destruct k; [contradiction | discriminate]. }
  unfold splitKeyValue. cbn [splitLoop dIdx content].
  replace (0 <? len src) with true
    by (symmetry; apply Z.ltb_lt, nonempty_len; exact Hne).
  unfold bind at 1.
  rewrite loopBody_plain; cbn [content emptyKeyIndex noSeparatorKeyIndex];
    rewrite ?Hdel; change (-1 =? -1) with true; cbn beta iota;
    try assumption; try (apply opensQuote_off; exact Hq).
  assert (Hv : getValue s (skipn (Z.to_nat (strings.Index src (Separator s)
                                            + len (Separator s))) src)
               = Some v).
  { rewrite Hsep, getValue_off by exact Hq. f_equal. subst src.
    unfold len. rewrite <- Nat2Z.inj_add, Nat2Z.id, app_assoc.
    rewrite <- length_app, skipn_app, skipn_all, Nat.sub_diag. reflexivity. }
  unfold bind.
  rewrite (handlePair_found s src 0 0 st v); [| rewrite Hsep; lia | exact Hv].
  rewrite Hsep.
  replace (len k =? 0) with false by (symmetry; apply Z.eqb_neq; lia).
  assert (Hkey : firstn (Z.to_nat (len k)) src = k).
  { subst src. unfold len. rewrite Nat2Z.id, firstn_app, Nat.sub_diag.
    rewrite firstn_all. cbn. apply app_nil_r. }
  rewrite Hkey. reflexivity.
Qed.

Lemma pair_round_trip_witness :
  let s := withSeparator (str "=>") newKeyValueSplitter in
  splitKeyValue s 1 (str "user" ++ str "=>" ++ str "a:b") (record [])
  = ({| Contents := [field (str "user") (str "a:b")];
        Warnings := [];
        Appended := [(PlainSite, field (str "user") (str "a:b"))] |}, Ok tt).
Proof.
  intros s.
  apply (pair_round_trip s (str "user") (str "a:b") 0 (record []));
    [reflexivity | discriminate | reflexivity | reflexivity].
Defined.

(** ** The default processor *)

(** X20: the processor that [newKeyValueSplitter] creates, once [Init] has
    been called on it (which attaches the context and leaves its settings
    as they are), processes every record normally: the call returns without
    panic, and, the source field being kept, the record afterwards is the
    record before followed by the appended fields. *)
Theorem default_processor_returns (fuel : nat) (st : Store) :
  let s := Init newKeyValueSplitter in
  (forall c, In c (Contents st) -> (length (Value c) <= fuel)%nat) ->
  snd (processLog s fuel st) = Ok tt
  /\ exists new, Contents (fst (processLog s fuel st)) = Contents st ++ new.
Proof.
  intros s Hfuel. split.
  - destruct (processLog_outcome s fuel st)
      as [H|(c & st0 & Hin & H)]; rewrite H; [reflexivity|].
    unfold splitKeyValue.
    apply splitLoop_halts_quoting_off; cbn [dIdx content];
      [reflexivity | discriminate | lia | apply Hfuel; exact Hin].
  - destruct (processLog_contents s fuel st) as (new & Hn).
    exists new. rewrite Hn. f_equal. clear.
    induction (Contents st) as [|c r IH]; [reflexivity|].
    cbn [keptFields]. destruct (isSource s c); [reflexivity|].
    f_equal. exact IH.
Qed.

Lemma default_processor_returns_witness :
  let st := record [field (str "msg") mixedContent] in
  snd (processLog (Init newKeyValueSplitter) 21 st) = Ok tt.
Proof.
  intros st.
  apply (default_processor_returns 21 st).
  intros c [<-|[]]. vm_compute. lia.
Defined.
